(** * GitHub analytics fetcher: a shallow embedding of [fetch_data.py]

    The development follows the layout of the Python module: the run-time
    notions the module relies on (exceptions, the module namespace, [datetime],
    insertion-ordered dictionaries, [sorted]), then the class
    [GitHubAnalytics] method by method, then [main], and finally the
    properties of the reducers and of the whole run.  The repository holds
    an earlier copy of the module under [files/]; [analyze_languages] and
    [get_repo_stats] are the same in both. *)

From Stdlib Require Import ZArith List String Ascii Bool Lia QArith.
From Stdlib Require Import Sorted Permutation DecimalString OrderedTypeEx.
Import ListNotations.

Local Open Scope string_scope.
Local Open Scope Z_scope.

(** ** Exceptions and outcomes *)

(** The exceptions the module can meet.  [OverflowError] is what [datetime]
    arithmetic raises when it leaves the supported range of years, and
    [RequestException] stands for any failure of the HTTP transport. *)
Inductive exn : Type :=
| NameError (name : string)
| KeyError (key : string)
| ValueError
| TypeError
| OverflowError
| FileNotFoundError
| IsADirectoryError
| RequestException.

(** The result of running a piece of Python: a value, a raised exception, or
    [OutOfFuel] when a [while True] loop was cut after the given number of
    iterations. *)
Inductive outcome (A : Type) : Type :=
| Ret (a : A)
| Raise (e : exn)
| OutOfFuel.

Arguments Ret {A} a.
Arguments Raise {A} e.
Arguments OutOfFuel {A}.

Definition obind {A B : Type} (m : outcome A) (k : A -> outcome B) : outcome B :=
  match m with
  | Ret a => k a
  | Raise e => Raise e
  | OutOfFuel => OutOfFuel
  end.

Declare Scope py_scope.
Delimit Scope py_scope with py.
Notation "x <- m ;; k" := (obind m (fun x => k))
  (at level 61, m at next level, right associativity) : py_scope.
Notation "' p <- m ;; k" := (obind m (fun p => k))
  (at level 61, p pattern, m at next level, right associativity) : py_scope.

(** [d[key]] on a JSON object whose field may be missing. *)
Definition getitem {A : Type} (key : string) (field : option A) : outcome A :=
  match field with
  | Some v => Ret v
  | None => Raise (KeyError key)
  end.

(** ** The module namespace

    Lines 2-6 of the module bind [requests], [json], [datetime],
    [defaultdict] and [os]; the [class] and [def] statements bind
    [GitHubAnalytics] and [main].  A name used in a method body that is
    neither local nor a builtin is looked up here when the expression is
    evaluated. *)
Definition module_globals : list string :=
  ["requests"; "json"; "datetime"; "defaultdict"; "os";
   "GitHubAnalytics"; "main"].

Definition load_global (name : string) : outcome unit :=
  if existsb (String.eqb name) module_globals then Ret tt
  else Raise (NameError name).

(** ** Decimal rendering, as f-strings and [strftime] do it *)

Definition str_of_Z (z : Z) : string := NilZero.string_of_int (Z.to_int z).

Definition digit_char (d : Z) : ascii := ascii_of_N (48 + Z.to_N d).

(** [%02d] and [%04d] for numbers that fit. *)
Definition pad2 (z : Z) : string :=
  String (digit_char (z / 10 mod 10)) (String (digit_char (z mod 10)) "").

Definition pad4 (z : Z) : string :=
  String (digit_char (z / 1000 mod 10))
    (String (digit_char (z / 100 mod 10)) (pad2 z)).

(** ** [datetime] *)

Record datetime : Type := mkdatetime {
  year : Z; month : Z; day : Z;
  hour : Z; minute : Z; second : Z
}.

Definition is_leap (y : Z) : bool :=
  (y mod 4 =? 0) && (negb (y mod 100 =? 0) || (y mod 400 =? 0)).

Definition days_in_month (y m : Z) : Z :=
  match m with
  | 1 | 3 | 5 | 7 | 8 | 10 | 12 => 31
  | 4 | 6 | 9 | 11 => 30
  | 2 => if is_leap y then 29 else 28
  | _ => 0
  end.

Definition days_before_year (y : Z) : Z :=
  let p := y - 1 in p * 365 + p / 4 - p / 100 + p / 400.

(** The days of the first [n] months of year [y]. *)
Fixpoint days_of_months (y : Z) (n : nat) : Z :=
  match n with
  | O => 0
  | S k => days_of_months y k + days_in_month y (Z.of_nat (S k))
  end.

(** Days of the year before the first of month [m]. *)
Definition days_before_month (y m : Z) : Z :=
  days_of_months y (Z.to_nat (m - 1)).

(** Proleptic Gregorian ordinal: 1 January of year 1 is day 1. *)
Definition toordinal (d : datetime) : Z :=
  days_before_year (year d) + days_before_month (year d) (month d) + day d.

(** [date.weekday()]: Monday is 0. *)
Definition weekday (d : datetime) : Z := (toordinal d + 6) mod 7.

Definition day_name (w : Z) : string :=
  match w with
  | 0 => "Monday" | 1 => "Tuesday" | 2 => "Wednesday" | 3 => "Thursday"
  | 4 => "Friday" | 5 => "Saturday" | _ => "Sunday"
  end.

(** [strftime('%A')] and [strftime('%Y-%m')].  The year is zero-padded to
    four digits, as the library documents [%Y]; for a year below 1000 the
    C library decides, and some leave the padding out. *)
Definition strftime_A (d : datetime) : string := day_name (weekday d).

Definition strftime_Ym (d : datetime) : string :=
  pad4 (year d) ++ "-" ++ pad2 (month d).

Definition valid_date (y m d : Z) : bool :=
  (1 <=? y) && (y <=? 9999) && (1 <=? m) && (m <=? 12) &&
  (1 <=? d) && (d <=? days_in_month y m).

Definition valid_datetime (t : datetime) : bool :=
  valid_date (year t) (month t) (day t) &&
  (0 <=? hour t) && (hour t <=? 23) &&
  (0 <=? minute t) && (minute t <=? 59) &&
  (0 <=? second t) && (second t <=? 59).

(** *** [datetime.strptime(s, '%Y-%m-%dT%H:%M:%SZ')]

    The library turns the format into a regular expression, matched
    ignoring case against the whole string: four digits for [%Y]; one or two
    digits for the other fields, within the range of the field ([%d] also
    takes a space followed by a digit, [%S] goes up to 61); the separators
    literally.  The fields are then handed to the [datetime] constructor,
    which rejects a year 0, a day the month does not have and a second above
    59.  Every rejection is a [ValueError].  The model reads the string as
    ASCII. *)

Definition is_digit (c : ascii) : bool :=
  let n := N_of_ascii c in ((48 <=? n) && (n <=? 57))%N.

Definition digit_value (c : ascii) : Z := Z.of_N (N_of_ascii c) - 48.

(** The longest prefix of digits (as values, most significant first) and
    what follows it. *)
Fixpoint span_digits (s : string) : list Z * string :=
  match s with
  | EmptyString => ([], EmptyString)
  | String c r =>
      if is_digit c
      then let '(ds, rest) := span_digits r in (digit_value c :: ds, rest)
      else ([], s)
  end.

Definition digits_value (ds : list Z) : Z :=
  fold_left (fun acc d => acc * 10 + d) ds 0.

(** A field of exactly [len] digits. *)
Definition field_exact (len : nat) (s : string) : option (Z * string) :=
  let '(ds, rest) := span_digits s in
  if Nat.eqb (List.length ds) len then Some (digits_value ds, rest) else None.

(** A field of one or two digits whose value lies in [lo..hi]; a leading
    zero is accepted in the two-digit form only. *)
Definition field_upto2 (lo hi : Z) (s : string) : option (Z * string) :=
  let '(ds, rest) := span_digits s in
  let v := digits_value ds in
  if (Nat.leb 1 (List.length ds) && Nat.leb (List.length ds) 2 && (lo <=? v) && (v <=? hi))%bool
  then Some (v, rest) else None.

(** [%d]: as above, or a space and a digit from 1 to 9. *)
Definition field_day (s : string) : option (Z * string) :=
  match s with
  | String " "%char (String c rest) =>
      if (is_digit c && (1 <=? digit_value c))%bool
      then Some (digit_value c, rest) else None
  | _ => field_upto2 1 31 s
  end.

(** A literal character of the format, matched ignoring case. *)
Definition lower (c : ascii) : ascii :=
  let n := N_of_ascii c in
  if ((65 <=? n) && (n <=? 90))%N then ascii_of_N (n + 32) else c.

Definition literal (c : ascii) (s : string) : option string :=
  match s with
  | String c' rest => if Ascii.eqb (lower c') (lower c) then Some rest else None
  | EmptyString => None
  end.

Definition obind_opt {A B : Type} (m : option A) (k : A -> option B) : option B :=
  match m with Some a => k a | None => None end.

Notation "x <-? m ;; k" := (obind_opt m (fun x => k))
  (at level 61, m at next level, right associativity) : py_scope.
Notation "' p <-? m ;; k" := (obind_opt m (fun p => k))
  (at level 61, p pattern, m at next level, right associativity) : py_scope.

Local Open Scope py_scope.

Definition match_format (s : string) : option datetime :=
  '(y, s) <-? field_exact 4 s ;;
  s <-? literal "-"%char s ;;
  '(m, s) <-? field_upto2 1 12 s ;;
  s <-? literal "-"%char s ;;
  '(d, s) <-? field_day s ;;
  s <-? literal "T"%char s ;;
  '(hh, s) <-? field_upto2 0 23 s ;;
  s <-? literal ":"%char s ;;
  '(mm, s) <-? field_upto2 0 59 s ;;
  s <-? literal ":"%char s ;;
  '(ss, s) <-? field_upto2 0 61 s ;;
  s <-? literal "Z"%char s ;;
  match s with
  | EmptyString => Some (mkdatetime y m d hh mm ss)
  | _ => None
  end.

Definition strptime (s : string) : outcome datetime :=
  match match_format s with
  | Some t => if valid_datetime t then Ret t else Raise ValueError
  | None => Raise ValueError
  end.

(** *** [datetime - timedelta(days=n)] *)

Definition days_before_month_table (m : Z) : Z :=
  match m with
  | 1 => 0 | 2 => 31 | 3 => 59 | 4 => 90 | 5 => 120 | 6 => 151
  | 7 => 181 | 8 => 212 | 9 => 243 | 10 => 273 | 11 => 304 | 12 => 334
  | _ => 0
  end.

Definition days_in_month_table (m : Z) : Z :=
  match m with
  | 1 | 3 | 5 | 7 | 8 | 10 | 12 => 31
  | 4 | 6 | 9 | 11 => 30
  | 2 => 28
  | _ => 0
  end.

(** The library's [_ord2ymd]: the date of a proleptic Gregorian ordinal. *)
Definition ord2ymd (ordinal : Z) : Z * Z * Z :=
  let n := ordinal - 1 in
  let n400 := n / 146097 in let n := n mod 146097 in
  let n100 := n / 36524 in let n := n mod 36524 in
  let n4 := n / 1461 in let n := n mod 1461 in
  let n1 := n / 365 in let n := n mod 365 in
  let y := n400 * 400 + 1 + n100 * 100 + n4 * 4 + n1 in
  if ((n1 =? 4) || (n100 =? 4))%bool then (y - 1, 12, 31)
  else
    let leapyear := ((n1 =? 3) && (negb (n4 =? 24) || (n100 =? 3)))%bool in
    let m := Z.shiftr (n + 50) 5 in
    let preceding :=
      days_before_month_table m + (if ((2 <? m) && leapyear)%bool then 1 else 0) in
    if n <? preceding
    then
      let m' := m - 1 in
      let preceding' :=
        preceding - (days_in_month_table m'
                     + (if ((m' =? 2) && leapyear)%bool then 1 else 0)) in
      (y, m', n - preceding' + 1)
    else (y, m, n - preceding + 1).

Definition MAXORDINAL : Z := 3652059.

(** [t - timedelta(days=n)]: the date moves, the time of day stays. *)
Definition sub_days (t : datetime) (n : Z) : outcome datetime :=
  let o := toordinal t - n in
  if ((0 <? o) && (o <=? MAXORDINAL))%bool
  then let '(y, m, d) := ord2ymd o in
       Ret (mkdatetime y m d (hour t) (minute t) (second t))
  else Raise OverflowError.

(** [t.replace(day=1)]: always a valid date. *)
Definition replace_day1 (t : datetime) : datetime :=
  mkdatetime (year t) (month t) 1 (hour t) (minute t) (second t).

(** ** Dictionaries

    A Python [dict] keeps its keys in insertion order, and the module relies
    on it ([dict(sorted(counts.items()))]), so a dictionary is the list of
    its items in insertion order, with no key twice. *)

Class Hashable (K : Type) : Type := {
  key_eqb : K -> K -> bool;
  key_eqb_spec : forall a b : K, reflect (a = b) (key_eqb a b)
}.

#[export] Instance Hashable_string : Hashable string :=
  {| key_eqb := String.eqb; key_eqb_spec := String.eqb_spec |}.

#[export] Instance Hashable_Z : Hashable Z :=
  {| key_eqb := Z.eqb; key_eqb_spec := Z.eqb_spec |}.

Definition dict (K V : Type) : Type := list (K * V).

Section Dict.
Context {K : Type} `{Hashable K}.

Fixpoint dict_get {V : Type} (k : K) (d : dict K V) : option V :=
  match d with
  | [] => None
  | (k', v) :: r => if key_eqb k k' then Some v else dict_get k r
  end.

(** [d[k] += n] on a [defaultdict(int)]: a missing key starts from 0 and
    is inserted last. *)
Fixpoint dict_add (k : K) (n : Z) (d : dict K Z) : dict K Z :=
  match d with
  | [] => [(k, 0 + n)]
  | (k', v) :: r =>
      if key_eqb k k' then (k', v + n) :: r else (k', v) :: dict_add k n r
  end.

(** [d.setdefault(k, v)], for its effect on [d]. *)
Fixpoint setdefault {V : Type} (k : K) (v : V) (d : dict K V) : dict K V :=
  match d with
  | [] => [(k, v)]
  | (k', v') :: r =>
      if key_eqb k k' then (k', v') :: r else (k', v') :: setdefault k v r
  end.

(** The counter a [defaultdict(int)] shows for a key. *)
Definition get0 (k : K) (d : dict K Z) : Z :=
  match dict_get k d with
  | Some v => v
  | None => 0
  end.

Definition keys {V : Type} (d : dict K V) : list K := map fst d.
Definition values {V : Type} (d : dict K V) : list V := map snd d.
End Dict.

(** ** [sorted]

    The builtin is a stable sort.  It is modelled by insertion from the
    right: an element goes in front of the first element it is not greater
    than, hence in front of the equal ones that came after it. *)
Section Sorted.
Context {A : Type} (le : A -> A -> bool).

Fixpoint insert (x : A) (l : list A) : list A :=
  match l with
  | [] => [x]
  | y :: r => if le x y then x :: y :: r else y :: insert x r
  end.

Fixpoint sorted (l : list A) : list A :=
  match l with
  | [] => []
  | x :: r => insert x (sorted r)
  end.
End Sorted.

(** The order of [(str, int)] tuples: by key, then by value.  Strings
    compare by code point. *)
Definition item_le (a b : string * Z) : bool :=
  match String.compare (fst a) (fst b) with
  | Lt => true
  | Eq => snd a <=? snd b
  | Gt => false
  end.

(** ** Loops *)

(** [for x in l: body], threading the local variables [s] and stopping at
    the first exception. *)
Fixpoint for_each {A S : Type} (l : list A) (s : S)
    (body : A -> S -> outcome S) : outcome S :=
  match l with
  | [] => Ret s
  | x :: r => s' <- body x s ;; for_each r s' body
  end.

(** [range(n)]. *)
Definition range (n : Z) : list Z := map Z.of_nat (seq 0 (Z.to_nat n)).

(** ** The JSON records of the API *)

Module Commit.
Record t : Type := mk { sha : string }.
End Commit.

Module PullRequest.
(** The nested pull-request record; a field is [None] when the key is
    absent or [null]. *)
Record t : Type := mk {
  merged : option bool;
  created_at : option string;
  closed_at : option string
}.
(** [{}] *)
Definition empty : t := mk None None None.
End PullRequest.

Module Payload.
Record t : Type := mk {
  commits : option (list Commit.t);
  action : option string;
  pull_request : option PullRequest.t
}.
Definition empty : t := mk None None None.
End Payload.

Module Event.
(** [type] is always present; [created_at] and [payload] may be missing. *)
Record t : Type := mk {
  type : string;
  created_at : option string;
  payload : option Payload.t
}.
End Event.

Module Owner.
Record t : Type := mk { login : option string }.
Definition empty : t := mk None.
End Owner.

Module License.
Record t : Type := mk { key : string }.
End License.

Module Repo.
Record t : Type := mk {
  name : string;
  owner : option Owner.t;
  language : option string;
  stargazers_count : Z;
  forks_count : Z;
  license : option License.t
}.
End Repo.

Module Profile.
Record t : Type := mk {
  login : string;
  name : option string;
  bio : option string;
  public_repos : Z;
  followers : Z;
  following : Z;
  created_at : string
}.
End Profile.

(** ** The reducers of [GitHubAnalytics] *)

(** Truth value of a nullable string: [None] and [''] are false. *)
Definition truthy_str (s : option string) : bool :=
  match s with
  | Some s => negb (String.eqb s "")
  | None => false
  end.

(** The body of the loop of [analyze_languages]. *)
Definition languages_step (language_stats : dict string Z) (repo : Repo.t)
  : dict string Z :=
  match Repo.language repo with
  | Some l => if truthy_str (Repo.language repo)
              then dict_add l 1 language_stats
              else language_stats
  | None => language_stats
  end.

Definition analyze_languages (repos : list Repo.t) : dict string Z :=
  fold_left languages_step repos [].

Definition is_push (event : Event.t) : bool :=
  String.eqb (Event.type event) "PushEvent".

(** [datetime.strptime(event['created_at'], '%Y-%m-%dT%H:%M:%SZ')] *)
Definition parse_created_at (event : Event.t) : outcome datetime :=
  s <- getitem "created_at" (Event.created_at event) ;;
  strptime s.

(** The body of the loop of [analyze_commit_times]. *)
Definition commit_times_step (event : Event.t) (st : dict Z Z * dict string Z)
  : outcome (dict Z Z * dict string Z) :=
  let '(commit_hours, commit_days) := st in
  if is_push event then
    created_at <- parse_created_at event ;;
    let hour := hour created_at in
    let day := strftime_A created_at in
    Ret (dict_add hour 1 commit_hours, dict_add day 1 commit_days)
  else Ret (commit_hours, commit_days).

Definition analyze_commit_times (events : list Event.t)
  : outcome (dict Z Z * dict string Z) :=
  for_each events ([], []) commit_times_step.

Definition activity_step (activity_types : dict string Z) (event : Event.t)
  : dict string Z :=
  dict_add (Event.type event) 1 activity_types.

Definition analyze_activity_types (events : list Event.t) : dict string Z :=
  fold_left activity_step events [].

(** [event.get('payload', {})] *)
Definition payload_of (event : Event.t) : Payload.t :=
  match Event.payload event with
  | Some p => p
  | None => Payload.empty
  end.

(** [len(event.get('payload', {}).get('commits', []))] *)
Definition commit_count (event : Event.t) : Z :=
  match Payload.commits (payload_of event) with
  | Some cs => Z.of_nat (List.length cs)
  | None => 0
  end.

(** [commits or 1] *)
Definition or_one (commits : Z) : Z := if commits =? 0 then 1 else commits.

(** The body of the first loop of [analyze_monthly_commits]. *)
Definition monthly_step (event : Event.t) (counts : dict string Z)
  : outcome (dict string Z) :=
  if is_push event then
    created_at <- parse_created_at event ;;
    let key := strftime_Ym created_at in
    let commits := commit_count event in
    Ret (dict_add key (or_one commits) counts)
  else Ret counts.

Definition monthly_group (events : list Event.t) : outcome (dict string Z) :=
  for_each events [] monthly_step.

(** What an iteration of the second loop does with [timedelta] at hand: 30
    days times [i] back from the first of the current month, and a zero for
    the month reached unless it has a count. *)
Definition backfill_month (now : datetime) (i : Z) (counts : dict string Z)
  : outcome (dict string Z) :=
  let first := replace_day1 now in
  t <- sub_days first (30 * i) ;;
  let m := strftime_Ym t in
  Ret (setdefault m 0 counts).

(** The body of the second loop: the name [timedelta] is looked up in the
    module when the subtraction is evaluated. *)
Definition backfill_step (now : datetime) (i : Z) (counts : dict string Z)
  : outcome (dict string Z) :=
  _ <- load_global "timedelta" ;;
  backfill_month now i counts.

Definition monthly_backfill (now : datetime) (months : Z)
    (counts : dict string Z) : outcome (dict string Z) :=
  for_each (range months) counts (backfill_step now).

(** [now] is the value of [datetime.utcnow()]. *)
Definition analyze_monthly_commits (now : datetime) (events : list Event.t)
    (months : Z) : outcome (dict string Z) :=
  counts <- monthly_group events ;;
  counts <- monthly_backfill now months counts ;;
  Ret (sorted item_le counts).

(** *** Pull requests

    Python computes the rate and the durations in binary floating point;
    the model keeps the exact rational, which has the same sign and is zero
    in the same cases for a single division. *)

Record PrStats : Type := mkPrStats {
  total_prs : Z;
  merged_prs : Z;
  merge_rate : option Q;
  avg_time_to_merge_hours : option Q
}.

Definition is_pull_request (event : Event.t) : bool :=
  String.eqb (Event.type event) "PullRequestEvent".

(** [event.get('payload', {}).get('pull_request') or {}] *)
Definition pr_of (event : Event.t) : PullRequest.t :=
  match Payload.pull_request (payload_of event) with
  | Some pr => pr
  | None => PullRequest.empty
  end.

(** [... .get('action') in ('closed',) and pr.get('merged')] *)
Definition closed_and_merged (event : Event.t) : bool :=
  match Payload.action (payload_of event) with
  | Some a => String.eqb a "closed"
  | None => false
  end &&
  match PullRequest.merged (pr_of event) with
  | Some b => b
  | None => false
  end.

Definition seconds_of (t : datetime) : Z :=
  toordinal t * 86400 + hour t * 3600 + minute t * 60 + second t.

(** [(closed - created).total_seconds() / 3600.0] *)
Definition hours_between (created closed : datetime) : Q :=
  (inject_Z (seconds_of closed - seconds_of created) / inject_Z 3600)%Q.

(** The body of the [try]. *)
Definition merge_duration (pr : PullRequest.t) : outcome Q :=
  s1 <- getitem "created_at" (PullRequest.created_at pr) ;;
  created <- strptime s1 ;;
  s2 <- getitem "closed_at" (PullRequest.closed_at pr) ;;
  closed <- strptime s2 ;;
  Ret (hours_between created closed).

(** [round(x, 1)]: to the nearest tenth, ties to the even tenth. *)
Definition round_half_even (q : Q) : Z :=
  let n := Qnum q in
  let d := Z.pos (Qden q) in
  let f := n / d in
  let r2 := 2 * (n mod d) in
  if r2 <? d then f
  else if d <? r2 then f + 1
  else if Z.even f then f else f + 1.

Definition round1 (q : Q) : Q :=
  (inject_Z (round_half_even (q * inject_Z 10)) / inject_Z 10)%Q.

Definition Qsum (l : list Q) : Q := fold_left Qplus l (inject_Z 0).

(** Truth value of a float: false exactly at zero. *)
Definition truthy_Q (q : Q) : bool := negb (Qeq_bool q 0).

Definition pr_step (event : Event.t) (st : Z * Z * list Q) : Z * Z * list Q :=
  let '(total_prs, merged_prs, merge_durations) := st in
  if is_pull_request event then
    let pr := pr_of event in
    let total_prs := total_prs + 1 in
    if closed_and_merged event then
      let merged_prs := merged_prs + 1 in
      match merge_duration pr with
      | Ret h => (total_prs, merged_prs, (merge_durations ++ [h])%list)
      | _ => (total_prs, merged_prs, merge_durations)
      end
    else (total_prs, merged_prs, merge_durations)
  else st.

Definition analyze_pr_stats (events : list Event.t) : PrStats :=
  let '(total_prs, merged_prs, merge_durations) :=
    fold_left (fun st event => pr_step event st) events (0, 0, []) in
  let merge_rate :=
    if total_prs =? 0 then None
    else Some (inject_Z merged_prs / inject_Z total_prs)%Q in
  let avg_time :=
    match merge_durations with
    | [] => None
    | _ => Some (Qsum merge_durations
                 / inject_Z (Z.of_nat (List.length merge_durations)))%Q
    end in
  {| total_prs := total_prs;
     merged_prs := merged_prs;
     merge_rate := merge_rate;
     avg_time_to_merge_hours :=
       match avg_time with
       | Some a => if truthy_Q a then Some (round1 a) else None
       | None => None
       end |}.

(** *** Repository popularity *)

Record RepoSummary : Type := mkRepoSummary {
  rs_name : string;
  rs_stars : Z;
  rs_forks : Z;
  rs_language : option string
}.

Record RepoStats : Type := mkRepoStats {
  total_stars : Z;
  total_forks : Z;
  total_repos : Z;
  top_repos : list RepoSummary
}.

(** The order [sorted(..., key=stars, reverse=True)] sorts by. *)
Definition stars_ge (a b : Repo.t) : bool :=
  Repo.stargazers_count b <=? Repo.stargazers_count a.

Definition Zsum (l : list Z) : Z := fold_left Z.add l 0.

(** One entry of the [top_repos_data] comprehension. *)
Definition repo_summary (repo : Repo.t) : RepoSummary :=
  {| rs_name := Repo.name repo;
     rs_stars := Repo.stargazers_count repo;
     rs_forks := Repo.forks_count repo;
     rs_language := Repo.language repo |}.

Definition get_repo_stats (repos : list Repo.t) : RepoStats :=
  let total_stars := Zsum (map Repo.stargazers_count repos) in
  let total_forks := Zsum (map Repo.forks_count repos) in
  let top_repos := firstn 5 (sorted stars_ge repos) in
  let top_repos_data := map repo_summary top_repos in
  {| total_stars := total_stars;
     total_forks := total_forks;
     total_repos := Z.of_nat (List.length repos);
     top_repos := top_repos_data |}.

(** ** The analytics document *)

Module UserSummary.
Record t : Type := mk {
  username : string;
  name : option string;
  bio : option string;
  public_repos : Z;
  followers : Z;
  following : Z;
  created_at : string
}.
End UserSummary.

Module RepoHealth.
Record t : Type := mk {
  has_readme : Z;
  has_ci : Z;
  has_tests : Z;
  has_license : Z;
  total_repos_checked : Z
}.
End RepoHealth.

Module Hireability.
Record t : Type := mk {
  public_repos : Z;
  stars : Z;
  followers : Z;
  consistency : Q;
  collaboration : Q
}.
End Hireability.

Module Analytics.
(** [last_updated] is kept as the [datetime] whose [isoformat()] the
    module stores. *)
Record t : Type := mk {
  user : UserSummary.t;
  languages : dict string Z;
  commit_hours : dict Z Z;
  commit_days : dict string Z;
  activity_types : dict string Z;
  repo_stats : RepoStats;
  monthly_commits : dict string Z;
  monthly_commits_avg : Q;
  pr_stats : PrStats;
  repo_health : RepoHealth.t;
  hireability_breakdown : Hireability.t;
  last_updated : datetime
}.
End Analytics.

(** ** The outside world

    What [requests.get] answers: a status code and the decoded body.  The
    three collections of the API are the shapes a body can have; anything
    else is [JNull]. *)
Inductive Body : Type :=
| JProfile (p : Profile.t)
| JRepos (l : list Repo.t)
| JEvents (l : list Event.t)
| JNull.

Record Response : Type := mkResponse {
  status_code : Z;
  json : Body
}.

Definition Headers : Type := list (string * string).

(** What a run does to the outside, in order. *)
Inductive Effect : Type :=
| EGet (url : string) (headers : Headers)
| EPrint (line : string)
| EMakedirs (path : string)
| EWrite (path : string) (data : Analytics.t).

Definition is_get (e : Effect) : bool :=
  match e with EGet _ _ => true | _ => false end.

Definition is_write (e : Effect) : bool :=
  match e with EWrite _ _ | EMakedirs _ => true | _ => false end.


(** *** [os.path.dirname] and [str.strip] *)

Fixpoint contains_slash (s : string) : bool :=
  match s with
  | EmptyString => false
  | String c r => Ascii.eqb c "/" || contains_slash r
  end.

(** [p[:p.rfind('/') + 1]] *)
Fixpoint upto_last_slash (s : string) : string :=
  match s with
  | EmptyString => EmptyString
  | String c r =>
      if contains_slash s then String c (upto_last_slash r) else EmptyString
  end.

Fixpoint all_slashes (s : string) : bool :=
  match s with
  | EmptyString => true
  | String c r => Ascii.eqb c "/" && all_slashes r
  end.

(** [s.rstrip('/')] *)
Fixpoint rstrip_slash (s : string) : string :=
  match s with
  | EmptyString => EmptyString
  | String c r => if all_slashes s then EmptyString else String c (rstrip_slash r)
  end.

Fixpoint ends_with_slash (s : string) : bool :=
  match s with
  | EmptyString => false
  | String c EmptyString => Ascii.eqb c "/"
  | String _ r => ends_with_slash r
  end.

Definition dirname (p : string) : string :=
  let head := upto_last_slash p in
  if all_slashes head then head else rstrip_slash head.

Definition is_space (c : ascii) : bool :=
  let n := N_of_ascii c in
  (((9 <=? n) && (n <=? 13)) || ((28 <=? n) && (n <=? 32)))%N.

Fixpoint lstrip (s : string) : string :=
  match s with
  | EmptyString => EmptyString
  | String c r => if is_space c then lstrip r else s
  end.

Fixpoint all_space (s : string) : bool :=
  match s with
  | EmptyString => true
  | String c r => is_space c && all_space r
  end.

Fixpoint rstrip (s : string) : string :=
  match s with
  | EmptyString => EmptyString
  | String c r => if all_space s then EmptyString else String c (rstrip r)
  end.

Definition strip (s : string) : string := rstrip (lstrip s).

(** ** Running against a transport

    [transport] is [requests.get]: it answers a URL and headers from the
    current state of the world, or fails ([None], a [RequestException]), and
    may change the world.  [utcnow] and [localnow] are the clocks. *)
Section Run.
Variable World : Type.
Variable transport : string -> Headers -> World -> option Response * World.
Variable utcnow : World -> datetime.
Variable localnow : World -> datetime.

Definition State : Type := (World * list Effect)%type.
Definition M (A : Type) : Type := State -> outcome A * State.

Definition mret {A : Type} (a : A) : M A := fun st => (Ret a, st).

Definition mbind {A B : Type} (m : M A) (k : A -> M B) : M B :=
  fun st =>
    match m st with
    | (Ret a, st') => k a st'
    | (Raise e, st') => (Raise e, st')
    | (OutOfFuel, st') => (OutOfFuel, st')
    end.

Definition lift {A : Type} (o : outcome A) : M A := fun st => (o, st).

Definition emit (e : Effect) : M unit :=
  fun st => (Ret tt, (fst st, (snd st ++ [e])%list)).

Definition print (line : string) : M unit := emit (EPrint line).

Definition requests_get (url : string) (headers : Headers) : M Response :=
  fun st =>
    let '(r, w') := transport url headers (fst st) in
    (match r with
     | Some response => Ret response
     | None => Raise RequestException
     end,
     (w', (snd st ++ [EGet url headers])%list)).

(** [try: m  except Exception: pass], where the variables the block
    assigns last keep the value [default] when it raises. *)
Definition try_except {A : Type} (m : M A) (default : A) : M A :=
  fun st =>
    match m st with
    | (Raise _, st') => (Ret default, st')
    | r => r
    end.

Declare Scope run_scope.
Notation "x <- m ;; k" := (mbind m (fun x => k))
  (at level 61, m at next level, right associativity) : run_scope.
Notation "m ;;; k" := (mbind m (fun _ => k))
  (at level 61, right associativity) : run_scope.
Local Open Scope run_scope.

Record GitHubAnalytics : Type := mkGitHubAnalytics {
  username : string;
  headers : Headers;
  base_url : string
}.

(** [__init__] *)
Definition init (username : string) (token : option string) : GitHubAnalytics :=
  {| username := username;
     headers := if truthy_str token
                then match token with
                     | Some t => [("Authorization", "token " ++ t)]
                     | None => []
                     end
                else [];
     base_url := "https://api.github.com" |}.

(** Returns [response.json()] or [None]. *)
Definition fetch_user_info (self : GitHubAnalytics) : M (option Body) :=
  let url := base_url self ++ "/users/" ++ username self in
  response <- requests_get url (headers self) ;;
  if status_code response =? 200 then mret (Some (json response))
  else
    print ("Error fetching user info: " ++ str_of_Z (status_code response)) ;;;
    mret None.

(** Truth value of a decoded body. *)
Definition body_truthy (b : Body) : bool :=
  match b with
  | JProfile _ => true
  | JRepos l => negb (Nat.eqb (List.length l) 0)
  | JEvents l => negb (Nat.eqb (List.length l) 0)
  | JNull => false
  end.

(** The items a body adds to a list of repositories or of events.  An
    empty list has no item type; a body of another shape is a [TypeError]
    (raised here, where Python raises it at the first field access). *)
Definition as_repos (b : Body) : outcome (list Repo.t) :=
  match b with
  | JRepos l => Ret l
  | JEvents [] => Ret []
  | _ => Raise TypeError
  end.

Definition as_events (b : Body) : outcome (list Event.t) :=
  match b with
  | JEvents l => Ret l
  | JRepos [] => Ret []
  | _ => Raise TypeError
  end.

Definition as_profile (b : Body) : outcome Profile.t :=
  match b with
  | JProfile p => Ret p
  | _ => Raise TypeError
  end.

(** The [while True] loop of [fetch_repos], cut after [fuel] pages. *)
Fixpoint fetch_repos_loop (fuel : nat) (self : GitHubAnalytics)
    (repos : list Repo.t) (page : Z) : M (list Repo.t) :=
  match fuel with
  | O => lift OutOfFuel
  | S fuel' =>
      let url := base_url self ++ "/users/" ++ username self
                 ++ "/repos?page=" ++ str_of_Z page ++ "&per_page=100" in
      response <- requests_get url (headers self) ;;
      if negb (status_code response =? 200) then mret repos
      else
        let data := json response in
        if negb (body_truthy data) then mret repos
        else
          items <- lift (as_repos data) ;;
          fetch_repos_loop fuel' self (repos ++ items)%list (page + 1)
  end.

Definition fetch_repos (fuel : nat) (self : GitHubAnalytics) : M (list Repo.t) :=
  fetch_repos_loop fuel self [] 1.

Fixpoint fetch_events_loop (self : GitHubAnalytics) (pages : list Z)
    (events : list Event.t) : M (list Event.t) :=
  match pages with
  | [] => mret events
  | page :: rest =>
      let url := base_url self ++ "/users/" ++ username self
                 ++ "/events?page=" ++ str_of_Z page ++ "&per_page=100" in
      response <- requests_get url (headers self) ;;
      if status_code response =? 200 then
        items <- lift (as_events (json response)) ;;
        fetch_events_loop self rest (events ++ items)%list
      else mret events
  end.

(** [range(1, pages + 1)] *)
Definition fetch_events (self : GitHubAnalytics) (pages : Z) : M (list Event.t) :=
  fetch_events_loop self (map (fun i => 1 + i) (range pages)) [].

(** *** Repository health *)

(** The login as the f-string renders it. *)
Definition owner_login (repo : Repo.t) : option string :=
  match Repo.owner repo with
  | Some o => Owner.login o
  | None => None
  end.

Definition fmt_opt (s : option string) : string :=
  match s with Some s => s | None => "None" end.

(** One [try] block probing a single path: what it adds to its counter. *)
Definition probe (self : GitHubAnalytics) (url : string) : M Z :=
  try_except
    (r <- requests_get url (headers self) ;;
     mret (if status_code r =? 200 then 1 else 0))
    0.

(** The [try] block of the tests directory, with its fallback. *)
Definition probe_tests (self : GitHubAnalytics) (base : string) : M Z :=
  try_except
    (r <- requests_get (base ++ "/tests") (headers self) ;;
     if status_code r =? 200 then mret 1
     else
       r2 <- requests_get (base ++ "/test") (headers self) ;;
       mret (if status_code r2 =? 200 then 1 else 0))
    0.

Record HealthAcc : Type := mkHealthAcc {
  acc_owner : option string;
  acc_readme : Z;
  acc_ci : Z;
  acc_tests : Z;
  acc_license : Z
}.

Definition health_step (self : GitHubAnalytics) (repo : Repo.t)
    (a : HealthAcc) : M HealthAcc :=
  let owner := if truthy_str (acc_owner a) then acc_owner a
               else owner_login repo in
  let has_license := match Repo.license repo with
                     | Some _ => acc_license a + 1
                     | None => acc_license a
                     end in
  let repo_name := Repo.name repo in
  let base := base_url self ++ "/repos/" ++ fmt_opt (owner_login repo)
              ++ "/" ++ repo_name ++ "/contents" in
  readme <- probe self (base ++ "/README.md") ;;
  ci <- probe self (base ++ "/.github/workflows") ;;
  tests <- probe_tests self base ;;
  mret {| acc_owner := owner;
          acc_readme := acc_readme a + readme;
          acc_ci := acc_ci a + ci;
          acc_tests := acc_tests a + tests;
          acc_license := has_license |}.

Fixpoint health_loop (self : GitHubAnalytics) (repos : list Repo.t)
    (a : HealthAcc) : M HealthAcc :=
  match repos with
  | [] => mret a
  | repo :: rest => a' <- health_step self repo a ;; health_loop self rest a'
  end.

Definition analyze_repo_health (self : GitHubAnalytics) (repos : list Repo.t)
  : M RepoHealth.t :=
  a <- health_loop self repos (mkHealthAcc None 0 0 0 0) ;;
  mret {| RepoHealth.has_readme := acc_readme a;
          RepoHealth.has_ci := acc_ci a;
          RepoHealth.has_tests := acc_tests a;
          RepoHealth.has_license := acc_license a;
          RepoHealth.total_repos_checked := Z.of_nat (List.length repos) |}.

(** *** The composer *)

Definition mean (vals : list Z) : Q :=
  match vals with
  | [] => inject_Z 0
  | _ => (inject_Z (Zsum vals) / inject_Z (Z.of_nat (List.length vals)))%Q
  end.

(** [(pr_stats.get('merge_rate') or 0) * 100] *)
Definition rate_percent (rate : option Q) : Q :=
  match rate with
  | Some r => if truthy_Q r then (r * inject_Z 100)%Q else inject_Z 0
  | None => inject_Z 0
  end.

(** Reading a clock leaves the world as it is. *)
Definition read {A : Type} (clock : World -> A) : M A :=
  fun st => (Ret (clock (fst st)), st).

Definition generate_analytics (fuel : nat) (self : GitHubAnalytics)
  : M (option Analytics.t) :=
  print ("Fetching data for " ++ username self ++ "...") ;;;
  user_info <- fetch_user_info self ;;
  match user_info with
  | None => mret None
  | Some user_info =>
    if negb (body_truthy user_info) then mret None
    else
      print "Fetching repositories..." ;;;
      repos <- fetch_repos fuel self ;;
      print "Fetching recent events..." ;;;
      events <- fetch_events self 3 ;;
      print "Analyzing data..." ;;;
      let languages := analyze_languages repos in
      times <- lift (analyze_commit_times events) ;;
      let activity_types := analyze_activity_types events in
      let repo_stats := get_repo_stats repos in
      now <- read utcnow ;;
      monthly_commits <- lift (analyze_monthly_commits now events 12) ;;
      let pr_stats := analyze_pr_stats events in
      repo_health <- analyze_repo_health self repos ;;
      let monthly_avg := mean (values monthly_commits) in
      profile <- lift (as_profile user_info) ;;
      let hireability_breakdown :=
        {| Hireability.public_repos := Profile.public_repos profile;
           Hireability.stars := total_stars repo_stats;
           Hireability.followers := Profile.followers profile;
           Hireability.consistency := round1 monthly_avg;
           Hireability.collaboration := round1 (rate_percent (merge_rate pr_stats)) |} in
      last_updated <- read localnow ;;
      mret (Some
        {| Analytics.user :=
             {| UserSummary.username := Profile.login profile;
                UserSummary.name := Profile.name profile;
                UserSummary.bio := Profile.bio profile;
                UserSummary.public_repos := Profile.public_repos profile;
                UserSummary.followers := Profile.followers profile;
                UserSummary.following := Profile.following profile;
                UserSummary.created_at := Profile.created_at profile |};
           Analytics.languages := languages;
           Analytics.commit_hours := fst times;
           Analytics.commit_days := snd times;
           Analytics.activity_types := activity_types;
           Analytics.repo_stats := repo_stats;
           Analytics.monthly_commits := monthly_commits;
           Analytics.monthly_commits_avg := round1 monthly_avg;
           Analytics.pr_stats := pr_stats;
           Analytics.repo_health := repo_health;
           Analytics.hireability_breakdown := hireability_breakdown;
           Analytics.last_updated := last_updated |})
  end.

(** [os.makedirs('')] raises, and [open] raises on a name that ends with
    a slash.  The failures that depend on what the file system holds (a
    directory under that name, missing rights) are not modelled. *)
Definition save_to_file (data : Analytics.t) (filename : string) : M unit :=
  let d := dirname filename in
  (if String.eqb d "" then lift (Raise FileNotFoundError)
   else emit (EMakedirs d)) ;;;
  (if ends_with_slash filename then lift (Raise IsADirectoryError)
   else emit (EWrite filename data)) ;;;
  print ("Data saved to " ++ filename).

Fixpoint repeat_string (s : string) (n : nat) : string :=
  match n with
  | O => ""
  | S k => s ++ repeat_string s k
  end.

Definition nl : string := String (ascii_of_nat 10) "".

(** [s or None] *)
Definition or_none (s : string) : option string :=
  if String.eqb s "" then None else Some s.

(** [main], the two lines typed by the user being given. *)
Definition main (fuel : nat) (username_line token_line : string) : M unit :=
  print (repeat_string "=" 50) ;;;
  print "GitHub Analytics Dashboard - Data Fetcher" ;;;
  print (repeat_string "=" 50) ;;;
  print "" ;;;
  print "Enter your GitHub username: " ;;;
  let username := strip username_line in
  print (nl ++ "Optional: Enter your GitHub Personal Access Token") ;;;
  print "(Increases API rate limit from 60 to 5000 requests/hour)" ;;;
  print "Leave empty to skip: " ;;;
  let token := or_none (strip token_line) in
  let analytics := init username token in
  data <- generate_analytics fuel analytics ;;
  match data with
  | Some data =>
      save_to_file data "data/analytics.json" ;;;
      print (nl ++ "✓ Success! Your analytics data has been generated.") ;;;
      print "  Open index.html in your browser to view the dashboard."
  | None =>
      print (nl ++ "✗ Failed to fetch data. Please check your username and try again.")
  end.
End Run.

(** ** Vocabulary of the properties *)

(** How many elements of [l] satisfy [p]. *)
Definition count {A : Type} (p : A -> bool) (l : list A) : Z :=
  Z.of_nat (List.length (filter p l)).

(** The repository has the non-empty language [k]. *)
Definition language_is (k : string) (repo : Repo.t) : bool :=
  match Repo.language repo with
  | Some l => String.eqb k l && negb (String.eqb l "")
  | None => false
  end.

Definition has_language (repo : Repo.t) : bool := truthy_str (Repo.language repo).

(** A pull-request event whose action is "closed" and whose nested record
    has the merged flag set. *)
Definition is_merged_pr (e : Event.t) : bool :=
  String.eqb (Event.type e) "PullRequestEvent" &&
  match Event.payload e with
  | Some p =>
      match Payload.action p, Payload.pull_request p with
      | Some a, Some pr =>
          String.eqb a "closed" &&
          match PullRequest.merged pr with
          | Some true => true
          | _ => false
          end
      | _, _ => false
      end
  | None => false
  end.

(** The merge duration of an event, when it is a merged pull request whose
    two timestamps are present and parse. *)
Definition valid_duration (e : Event.t) : option Q :=
  if is_merged_pr e then
    match merge_duration (pr_of e) with
    | Ret h => Some h
    | _ => None
    end
  else None.

Definition durations_of (events : list Event.t) : list Q :=
  flat_map (fun e => match valid_duration e with
                     | Some h => [h]
                     | None => []
                     end) events.

(** The year-month key a push event is grouped under, when its timestamp
    parses. *)
Definition month_key (e : Event.t) : option string :=
  if is_push e then
    match parse_created_at e with
    | Ret t => Some (strftime_Ym t)
    | _ => None
    end
  else None.

Definition in_month (k : string) (e : Event.t) : bool :=
  match month_key e with
  | Some k' => String.eqb k k'
  | None => false
  end.

(** The commits pushed in month [k], a push without a commit list counting
    for one. *)
Definition month_total (k : string) (events : list Event.t) : Z :=
  Zsum (map (fun e => or_one (commit_count e)) (filter (in_month k) events)).

(** Reading a key of the form [YYYY-MM] back into year and month. *)
Definition decode_ym (s : string) : option (Z * Z) :=
  match field_exact 4 s with
  | Some (y, String "-"%char rest) =>
      match span_digits rest with
      | ([a; b], EmptyString) => Some (y, a * 10 + b)
      | _ => None
      end
  | _ => None
  end.

Definition valid_year_month (s : string) : bool :=
  match decode_ym s with
  | Some (y, m) => (1 <=? y) && (y <=? 9999) && (1 <=? m) && (m <=? 12)
  | None => false
  end.

(** [k1] is a month before [k2]. *)
Definition chron_lt (k1 k2 : string) : Prop :=
  match decode_ym k1, decode_ym k2 with
  | Some (y1, m1), Some (y2, m2) => y1 < y2 \/ (y1 = y2 /\ m1 < m2)
  | _, _ => False
  end.

(** A transport that answers every request with the same status and an
    empty body, in a world without state. *)
Definition constant_transport (status : Z)
  : string -> Headers -> unit -> option Response * unit :=
  fun _ _ w => (Some (mkResponse status JNull), w).

(** ** Vocabulary of the further properties *)

(** The hour and the weekday a push event is counted under, when its
    timestamp parses. *)
Definition hour_of (e : Event.t) : option Z :=
  if is_push e then
    match parse_created_at e with
    | Ret t => Some (hour t)
    | _ => None
    end
  else None.

Definition day_of (e : Event.t) : option string :=
  if is_push e then
    match parse_created_at e with
    | Ret t => Some (strftime_A t)
    | _ => None
    end
  else None.

Definition at_hour (k : Z) (e : Event.t) : bool :=
  match hour_of e with
  | Some h => k =? h
  | None => false
  end.

Definition on_day (k : string) (e : Event.t) : bool :=
  match day_of e with
  | Some d => String.eqb k d
  | None => false
  end.

Definition weekday_names : list string :=
  ["Monday"; "Tuesday"; "Wednesday"; "Thursday"; "Friday"; "Saturday"; "Sunday"].

Definition has_license_field (repo : Repo.t) : bool :=
  match Repo.license repo with
  | Some _ => true
  | None => false
  end.




(** [m] leaves the trace it finds in place and adds effects that all
    satisfy [P], whatever its outcome. *)
Definition appends {World A : Type} (P : Effect -> Prop) (m : M World A) : Prop :=
  forall st, exists new,
    snd (snd (m st)) = (snd st ++ new)%list /\ Forall P new.

(** A line printed, or a request under the base URL that carries the
    headers of [self]. *)
Definition print_or_request (self : GitHubAnalytics) (e : Effect) : Prop :=
  match e with
  | EPrint _ => True
  | EGet url h => h = headers self /\ exists path, url = base_url self ++ "/" ++ path
  | _ => False
  end.

(** A transport with a fixed answer for the profile, one page of
    repositories and one page of events of the user [octocat], and 404
    for everything else. *)
Definition octocat_profile : Profile.t :=
  Profile.mk "octocat" (Some "The Octocat") None 8 100 9 "2011-01-25T18:44:36Z".

Definition octocat_repo : Repo.t :=
  Repo.mk "hello-world" (Some (Owner.mk (Some "octocat"))) (Some "Go") 10 2 None.

Definition octocat_push : Event.t :=
  Event.mk "PushEvent" (Some "2024-01-15T10:00:00Z")
    (Some (Payload.mk (Some [Commit.mk "a"]) None None)).

Definition octocat_transport
  : string -> Headers -> unit -> option Response * unit :=
  fun url _ w =>
    let base := "https://api.github.com/users/octocat" in
    if String.eqb url base then (Some (mkResponse 200 (JProfile octocat_profile)), w)
    else if String.eqb url (base ++ "/repos?page=1&per_page=100")
    then (Some (mkResponse 200 (JRepos [octocat_repo])), w)
    else if String.eqb url (base ++ "/repos?page=2&per_page=100")
    then (Some (mkResponse 200 (JRepos [])), w)
    else if String.eqb url (base ++ "/events?page=1&per_page=100")
    then (Some (mkResponse 200 (JEvents [octocat_push])), w)
    else (Some (mkResponse 404 JNull), w).


(** A transport on which every request fails. *)
Definition failing_transport
  : string -> Headers -> unit -> option Response * unit :=
  fun _ _ w => (None, w).

(** * Properties *)

(** ** The library model on the scenarios of the specification *)

Example strptime_scenario :
  strptime "2024-01-15T10:00:00Z" = Ret (mkdatetime 2024 1 15 10 0 0).
Proof. reflexivity. Qed.

Example strptime_lenient :
  strptime "2024-1- 5t7:3:09z" = Ret (mkdatetime 2024 1 5 7 3 9).
Proof. reflexivity. Qed.

Example strptime_bad_day : strptime "2023-02-29T10:00:00Z" = Raise ValueError.
Proof. reflexivity. Qed.

Example strptime_garbage : strptime "yesterday" = Raise ValueError.
Proof. reflexivity. Qed.

Example weekday_scenario :
  strftime_A (mkdatetime 2024 1 15 10 0 0) = "Monday".
Proof. reflexivity. Qed.

Example sub_days_roundtrip :
  sub_days (mkdatetime 2024 3 1 0 0 0) 30 = Ret (mkdatetime 2024 1 31 0 0 0).
Proof. reflexivity. Qed.

Example dirname_default : dirname "data/analytics.json" = "data".
Proof. reflexivity. Qed.

Example strip_line : strip "  octocat " = "octocat".
Proof. reflexivity. Qed.

(** ** Sums and counts *)

Lemma count_nil {A : Type} (p : A -> bool) : count p [] = 0.
Proof. reflexivity. Qed.

Lemma count_cons {A : Type} (p : A -> bool) (x : A) (l : list A) :
  count p (x :: l) = (if p x then 1 else 0) + count p l.
Proof.
  unfold count; simpl. destruct (p x); simpl List.length; lia.
Qed.

Lemma count_bounds {A : Type} (p : A -> bool) (l : list A) :
  0 <= count p l <= Z.of_nat (List.length l).
Proof.
  induction l as [|x l IH]; [rewrite count_nil; simpl; lia|].
  rewrite count_cons. simpl List.length. destruct (p x); lia.
Qed.

Lemma count_full_iff {A : Type} (p : A -> bool) (l : list A) :
  count p l = Z.of_nat (List.length l) <-> forall x, In x l -> p x = true.
Proof.
  induction l as [|x l IH].
  - split; [intros _ y []|reflexivity].
  - rewrite count_cons. simpl List.length.
    pose proof (count_bounds p l) as Hb.
    destruct (p x) eqn:Hp; split.
    + intros Hc y [<-|Hy]; [exact Hp|]. apply IH; [lia|exact Hy].
    + intros Hall. assert (count p l = Z.of_nat (List.length l)) as ->; [|lia].
      apply IH. intros y Hy. apply Hall. now right.
    + intros Hc. lia.
    + intros Hall. specialize (Hall x (or_introl eq_refl)). congruence.
Qed.

Lemma count_le_mono {A : Type} (p q : A -> bool) (l : list A) :
  (forall x, p x = true -> q x = true) -> count p l <= count q l.
Proof.
  intros Hpq. induction l as [|x l IH]; [rewrite !count_nil; lia|].
  rewrite !count_cons. specialize (Hpq x).
  destruct (p x), (q x); first [lia | discriminate (Hpq eq_refl)].
Qed.

Lemma fold_add_shift (l : list Z) (a : Z) :
  fold_left Z.add l a = a + fold_left Z.add l 0.
Proof.
  revert a. induction l as [|x l IH]; intros a; simpl; [lia|].
  rewrite (IH (a + x)), (IH x). lia.
Qed.

Lemma Zsum_cons (x : Z) (l : list Z) : Zsum (x :: l) = x + Zsum l.
Proof. unfold Zsum. simpl. now rewrite fold_add_shift. Qed.

(** ** Dictionaries *)

Section DictFacts.
Context {K : Type} `{Hashable K}.

Lemma keys_dict_add (k k' : K) (n : Z) (d : dict K Z) :
  In k (keys (dict_add k' n d)) <-> k = k' \/ In k (keys d).
Proof.
  induction d as [|[k0 v0] d IH]; simpl.
  - intuition.
  - destruct (key_eqb_spec k' k0) as [->|Hne]; simpl.
    + intuition.
    + rewrite IH. intuition.
Qed.

Lemma get0_dict_add (k k' : K) (n : Z) (d : dict K Z) :
  get0 k (dict_add k' n d) = get0 k d + (if key_eqb k k' then n else 0).
Proof.
  unfold get0. induction d as [|[k0 v0] d IH]; simpl.
  - destruct (key_eqb k k'); lia.
  - destruct (key_eqb_spec k' k0) as [->|Hne]; simpl.
    + destruct (key_eqb k k0); lia.
    + destruct (key_eqb_spec k k0) as [->|Hne'].
      * destruct (key_eqb_spec k0 k'); [congruence|lia].
      * exact IH.
Qed.

Lemma values_dict_add (k : K) (n : Z) (d : dict K Z) :
  Zsum (values (dict_add k n d)) = Zsum (values d) + n.
Proof.
  unfold values. induction d as [|[k0 v0] d IH]; simpl.
  - unfold Zsum; simpl. lia.
  - destruct (key_eqb k k0); simpl; rewrite !Zsum_cons; [lia|].
    rewrite IH. lia.
Qed.

Lemma NoDup_dict_add (k : K) (n : Z) (d : dict K Z) :
  NoDup (keys d) -> NoDup (keys (dict_add k n d)).
Proof.
  induction d as [|[k0 v0] d IH]; simpl; intros Hnd.
  - constructor; [intros []|constructor].
  - inversion Hnd as [|? ? Hnotin Hnd']; subst.
    destruct (key_eqb_spec k k0) as [->|Hne]; simpl.
    + now constructor.
    + constructor; [|now apply IH].
      fold (keys (dict_add k n d)). rewrite keys_dict_add.
      intros [E|Hin]; [congruence|contradiction].
Qed.

Lemma dict_add_values_pos (k : K) (n : Z) (d : dict K Z) :
  1 <= n -> Forall (fun v => 1 <= v) (values d) ->
  Forall (fun v => 1 <= v) (values (dict_add k n d)).
Proof.
  intros Hn. unfold values.
  induction d as [|[k0 v0] d IH]; simpl; intros Hall.
  - constructor; [lia|constructor].
  - inversion Hall; subst.
    destruct (key_eqb k k0); simpl; constructor; try lia; auto.
Qed.

End DictFacts.

(** ** Language distribution *)

Lemma languages_step_sum (d : dict string Z) (repo : Repo.t) :
  Zsum (values (languages_step d repo)) =
  Zsum (values d) + (if has_language repo then 1 else 0).
Proof.
  unfold languages_step, has_language.
  destruct (Repo.language repo) as [l|]; simpl; [|lia].
  destruct (negb (String.eqb l "")); [apply values_dict_add|lia].
Qed.

Lemma languages_step_get0 (k : string) (d : dict string Z) (repo : Repo.t) :
  get0 k (languages_step d repo) =
  get0 k d + (if language_is k repo then 1 else 0).
Proof.
  unfold languages_step, language_is.
  destruct (Repo.language repo) as [l|]; simpl; [|lia].
  destruct (String.eqb l ""); simpl.
  - rewrite andb_false_r. lia.
  - rewrite andb_true_r. exact (get0_dict_add k l 1 d).
Qed.

Lemma languages_step_keys (k : string) (d : dict string Z) (repo : Repo.t) :
  In k (keys (languages_step d repo)) <->
  In k (keys d) \/ language_is k repo = true.
Proof.
  unfold languages_step, language_is.
  destruct (Repo.language repo) as [l|]; simpl; [|intuition discriminate].
  destruct (String.eqb_spec l "") as [->|Hne]; simpl.
  - rewrite andb_false_r. intuition discriminate.
  - rewrite andb_true_r, keys_dict_add.
    destruct (String.eqb_spec k l); intuition (try discriminate; try congruence).
Qed.

Lemma languages_step_NoDup (d : dict string Z) (repo : Repo.t) :
  NoDup (keys d) -> NoDup (keys (languages_step d repo)).
Proof.
  unfold languages_step. destruct (Repo.language repo) as [l|]; auto.
  destruct (truthy_str (Some l)); auto. apply NoDup_dict_add.
Qed.

Lemma languages_fold (repos : list Repo.t) (d : dict string Z) :
  let d' := fold_left languages_step repos d in
  Zsum (values d') = Zsum (values d) + count has_language repos /\
  (forall k, get0 k d' = get0 k d + count (language_is k) repos) /\
  (forall k, In k (keys d') <->
             In k (keys d) \/ exists r, In r repos /\ language_is k r = true) /\
  (NoDup (keys d) -> NoDup (keys d')).
Proof.
  revert d. induction repos as [|repo repos IH]; intros d; simpl.
  - split; [|split; [|split]].
    + rewrite count_nil. lia.
    + intros k. rewrite count_nil. lia.
    + intros k. split; [now left|]. intros [Hin|[r [[] _]]]. exact Hin.
    + auto.
  - destruct (IH (languages_step d repo)) as (Hs & Hg & Hk & Hn).
    split; [|split; [|split]].
    + rewrite Hs, languages_step_sum, count_cons. lia.
    + intros k. rewrite Hg, languages_step_get0, count_cons. lia.
    + intros k. rewrite Hk, languages_step_keys. split.
      * intros [[Hin|Hl]|[r [Hr Hl]]]; eauto 6.
      * intros [Hin|[r [[<-|Hr] Hl]]]; eauto 6.
    + intros Hnd. apply Hn, languages_step_NoDup, Hnd.
Qed.

Lemma language_is_spec (k : string) (repo : Repo.t) :
  language_is k repo = true <-> Repo.language repo = Some k /\ k <> "".
Proof.
  unfold language_is. destruct (Repo.language repo) as [l|]; [|intuition discriminate].
  destruct (String.eqb_spec k l) as [->|Hne], (String.eqb_spec l "") as [->|Hne'];
    simpl; intuition (try discriminate; try congruence).
Qed.

Lemma has_language_spec (repo : Repo.t) :
  has_language repo = true <->
  exists l, Repo.language repo = Some l /\ l <> "".
Proof.
  unfold has_language, truthy_str.
  destruct (Repo.language repo) as [l|].
  - destruct (String.eqb_spec l "") as [->|Hne]; simpl; split.
    + discriminate.
    + intros (l & E & Hl). congruence.
    + intros _. now exists l.
    + reflexivity.
  - split; [discriminate|]. intros (l & E & _). discriminate.
Qed.

(** C6, as amended.  The values of the language distribution add up to at
    most the number of repositories, with equality exactly when every
    repository has a language that is neither null nor the empty string;
    the keys are the non-empty languages of the repositories, each once,
    each with the number of repositories that have it, so that a repository
    with a null language is counted under no key. *)
Theorem analyze_languages_sum (repos : list Repo.t) :
  let d := analyze_languages repos in
  Zsum (values d) <= Z.of_nat (List.length repos) /\
  (Zsum (values d) = Z.of_nat (List.length repos) <->
   forall r, In r repos -> exists l, Repo.language r = Some l /\ l <> "") /\
  (forall k, In k (keys d) <->
             k <> "" /\ exists r, In r repos /\ Repo.language r = Some k) /\
  (forall k, get0 k d = count (language_is k) repos) /\
  NoDup (keys d).
Proof.
  unfold analyze_languages.
  destruct (languages_fold repos []) as (Hs & Hg & Hk & Hn).
  cbv zeta in *. change (Zsum (values [])) with 0 in Hs.
  pose proof (count_bounds has_language repos) as Hb.
  split; [lia|]. split; [|split; [|split]].
  - rewrite Hs, Z.add_0_l, count_full_iff.
    split; intros Hall r Hr; apply has_language_spec, Hall, Hr.
  - intros k. rewrite Hk. split.
    + intros [[]|(r & Hr & Hl)]. apply language_is_spec in Hl. split; [tauto|].
      exists r. tauto.
    + intros (Hne & r & Hr & Hl). right. exists r. split; [exact Hr|].
      apply language_is_spec. tauto.
  - intros k. rewrite Hg. reflexivity.
  - apply Hn. constructor.
Qed.

(** C6 as stated fails on a repository whose language is the empty string:
    no language is null, yet the sum stays below the repository count. *)
Lemma analyze_languages_empty_string :
  let repos := [Repo.mk "scratch" None (Some "") 0 0 None] in
  (forall r, In r repos -> Repo.language r <> None) /\
  Zsum (values (analyze_languages repos)) = 0 /\
  Zsum (values (analyze_languages repos)) <> Z.of_nat (List.length repos).
Proof.
  cbv zeta. split; [|split].
  - intros r [<-|[]]. discriminate.
  - reflexivity.
  - discriminate.
Qed.

(** The scenario of the specification. *)
Example analyze_languages_scenario :
  analyze_languages
    [Repo.mk "a" None (Some "Go") 10 0 None;
     Repo.mk "b" None (Some "Go") 5 0 None;
     Repo.mk "c" None (Some "Python") 20 0 None]
  = [("Go", 2); ("Python", 1)].
Proof. reflexivity. Qed.

(** ** [sorted] is a stable sort *)

Section SortedFacts.
Context {A : Type} (le : A -> A -> bool).
Hypothesis le_total : forall x y, le x y = true \/ le y x = true.
Hypothesis le_trans : forall x y z, le x y = true -> le y z = true -> le x z = true.

Let R (x y : A) : Prop := le x y = true.

Lemma insert_length (x : A) (l : list A) :
  List.length (insert le x l) = S (List.length l).
Proof.
  induction l as [|y l IH]; simpl; [reflexivity|].
  destruct (le x y); simpl; [reflexivity|]. now rewrite IH.
Qed.

Lemma sorted_length (l : list A) : List.length (sorted le l) = List.length l.
Proof.
  induction l as [|x l IH]; simpl; [reflexivity|].
  now rewrite insert_length, IH.
Qed.

Lemma insert_perm (x : A) (l : list A) : Permutation (x :: l) (insert le x l).
Proof.
  induction l as [|y l IH]; simpl; [reflexivity|].
  destruct (le x y); [reflexivity|].
  rewrite perm_swap. now constructor.
Qed.

Lemma sorted_perm (l : list A) : Permutation l (sorted le l).
Proof.
  induction l as [|x l IH]; simpl; [constructor|].
  rewrite <- insert_perm. now constructor.
Qed.

Lemma insert_StronglySorted (x : A) (l : list A) :
  StronglySorted R l -> StronglySorted R (insert le x l).
Proof.
  induction l as [|y l IH]; simpl; intros Hs.
  - constructor; constructor.
  - inversion Hs as [|? ? Hs' Hall]; subst.
    destruct (le x y) eqn:Hxy.
    + constructor; [exact Hs|]. constructor; [exact Hxy|].
      eapply Forall_impl; [|exact Hall]. intros z Hz. exact (le_trans _ _ _ Hxy Hz).
    + constructor; [now apply IH|].
      apply (Permutation_Forall (insert_perm x l)).
      constructor; [|exact Hall].
      destruct (le_total x y) as [E|E]; [congruence|exact E].
Qed.

Lemma sorted_StronglySorted (l : list A) : StronglySorted R (sorted le l).
Proof.
  induction l as [|x l IH]; simpl; [constructor|].
  now apply insert_StronglySorted.
Qed.

(** Stability: the elements of one class of the order keep their input
    order.  A class is given by a predicate whose members are all below
    one another. *)
Section Stability.
Variable p : A -> bool.
Hypothesis p_class : forall x y, p x = true -> p y = true -> le x y = true.

Lemma filter_insert (x : A) (l : list A) :
  filter p (insert le x l) = filter p (x :: l).
Proof.
  induction l as [|y l IH]; [reflexivity|].
  simpl insert. destruct (le x y) eqn:Hxy; [reflexivity|].
  simpl in *. rewrite IH.
  destruct (p x) eqn:Hx, (p y) eqn:Hy; try reflexivity.
  rewrite (p_class x y Hx Hy) in Hxy. discriminate.
Qed.

Lemma filter_sorted (l : list A) : filter p (sorted le l) = filter p l.
Proof.
  induction l as [|x l IH]; [reflexivity|].
  simpl sorted. rewrite filter_insert. simpl. now rewrite IH.
Qed.
End Stability.
End SortedFacts.

Lemma filter_firstn_prefix {A : Type} (p : A -> bool) (n : nat) (l : list A) :
  exists m, filter p (firstn n l) = firstn m (filter p l).
Proof.
  revert n. induction l as [|x l IH]; intros [|n]; simpl.
  - now exists O.
  - now exists O.
  - now exists O.
  - destruct (IH n) as [m Hm]. destruct (p x).
    + exists (S m). simpl. now rewrite Hm.
    + exists m. exact Hm.
Qed.

Lemma filter_map_comm {A B : Type} (f : A -> B) (p : B -> bool) (l : list A) :
  filter p (map f l) = map f (filter (fun a => p (f a)) l).
Proof.
  induction l as [|x l IH]; simpl; [reflexivity|].
  destruct (p (f x)); simpl; now rewrite IH.
Qed.

Lemma firstn_In {A : Type} (x : A) (n : nat) (l : list A) :
  In x (firstn n l) -> In x l.
Proof.
  revert n. induction l as [|y l IH]; intros [|n]; simpl; try tauto.
  intros [E|Hin]; [now left|right; eapply IH, Hin].
Qed.

Lemma StronglySorted_firstn {A : Type} (R : A -> A -> Prop) (n : nat) (l : list A) :
  StronglySorted R l -> StronglySorted R (firstn n l).
Proof.
  revert n. induction l as [|x l IH]; intros [|n] Hs; simpl; try constructor.
  - apply IH. now inversion Hs.
  - inversion Hs as [|? ? _ Hall]; subst.
    rewrite Forall_forall in *. intros y Hy. apply Hall.
    eapply firstn_In, Hy.
Qed.

Lemma StronglySorted_map {A B : Type} (f : A -> B) (R : B -> B -> Prop) (l : list A) :
  StronglySorted (fun a b => R (f a) (f b)) l -> StronglySorted R (map f l).
Proof.
  induction 1 as [|x l Hs IH Hall]; simpl; constructor; [exact IH|].
  rewrite Forall_forall in *. intros y Hy.
  apply in_map_iff in Hy as (a & <- & Ha). now apply Hall.
Qed.

(** ** Repository popularity *)

Lemma stars_ge_total (x y : Repo.t) : stars_ge x y = true \/ stars_ge y x = true.
Proof. unfold stars_ge. lia. Qed.

Lemma stars_ge_trans (x y z : Repo.t) :
  stars_ge x y = true -> stars_ge y z = true -> stars_ge x z = true.
Proof. unfold stars_ge. lia. Qed.

(** C7.  The list of top repositories has [min 5 n] entries for [n]
    repositories, is in descending order of stars, and lists the
    repositories of any one star count in the order the input has them. *)
Theorem get_repo_stats_top (repos : list Repo.t) :
  let top := top_repos (get_repo_stats repos) in
  List.length top = Nat.min 5 (List.length repos) /\
  StronglySorted (fun a b => rs_stars b <= rs_stars a) top /\
  (forall k, exists n,
      filter (fun s => rs_stars s =? k) top =
      firstn n (map repo_summary
                  (filter (fun r => Repo.stargazers_count r =? k) repos))).
Proof.
  cbv zeta. unfold get_repo_stats; cbn [top_repos].
  split; [|split].
  - now rewrite length_map, length_firstn, sorted_length.
  - apply StronglySorted_map, StronglySorted_firstn.
    eapply StronglySorted_ind with (P := StronglySorted _);
      [constructor| |exact (sorted_StronglySorted stars_ge stars_ge_total stars_ge_trans repos)].
    intros a l _ IH Hall. constructor; [exact IH|].
    eapply Forall_impl; [|exact Hall]. unfold stars_ge, repo_summary; simpl.
    intros b Hb. lia.
  - intros k. rewrite filter_map_comm. simpl rs_stars.
    destruct (filter_firstn_prefix (fun r => Repo.stargazers_count r =? k) 5
                (sorted stars_ge repos)) as [n Hn].
    exists n. rewrite Hn, <- firstn_map. f_equal. f_equal.
    apply filter_sorted. unfold stars_ge. intros x y Hx Hy. lia.
Qed.

(** The scenario of the specification: stars 10, 5 and 20. *)
Example get_repo_stats_scenario :
  let r := get_repo_stats
    [Repo.mk "a" None (Some "Go") 10 0 None;
     Repo.mk "b" None (Some "Go") 5 0 None;
     Repo.mk "c" None (Some "Python") 20 0 None] in
  map rs_name (top_repos r) = ["c"; "a"; "b"] /\ total_stars r = 35.
Proof. split; reflexivity. Qed.

(** ** Pull-request statistics *)

Lemma is_merged_pr_spec (e : Event.t) :
  is_merged_pr e = is_pull_request e && closed_and_merged e.
Proof.
  unfold is_merged_pr, is_pull_request, closed_and_merged, pr_of, payload_of.
  f_equal.
  destruct (Event.payload e) as [[c [a|] [[[[|]|] ca cl]|]]|]; simpl;
    rewrite ?andb_false_r; reflexivity.
Qed.

Lemma pr_step_spec (e : Event.t) (t m : Z) (ds : list Q) :
  pr_step e (t, m, ds) =
  (t + (if is_pull_request e then 1 else 0),
   m + (if is_merged_pr e then 1 else 0),
   (ds ++ durations_of [e])%list).
Proof.
  unfold pr_step, durations_of, valid_duration. simpl flat_map.
  rewrite is_merged_pr_spec.
  destruct (is_pull_request e); simpl.
  - destruct (closed_and_merged e); simpl.
    + destruct (merge_duration (pr_of e)); simpl; rewrite ?app_nil_r; reflexivity.
    + rewrite app_nil_r, Z.add_0_r. reflexivity.
  - rewrite app_nil_r, !Z.add_0_r. reflexivity.
Qed.

Lemma durations_of_cons (e : Event.t) (events : list Event.t) :
  durations_of (e :: events) = (durations_of [e] ++ durations_of events)%list.
Proof. unfold durations_of. simpl. now rewrite app_nil_r. Qed.

Lemma pr_fold (events : list Event.t) (t m : Z) (ds : list Q) :
  fold_left (fun st event => pr_step event st) events (t, m, ds) =
  (t + count is_pull_request events,
   m + count is_merged_pr events,
   (ds ++ durations_of events)%list).
Proof.
  revert t m ds. induction events as [|e events IH]; intros t m ds; cbn [fold_left].
  - rewrite !count_nil, !Z.add_0_r. unfold durations_of; simpl.
    rewrite app_nil_r. reflexivity.
  - rewrite pr_step_spec, IH, !count_cons, (durations_of_cons e events).
    rewrite <- app_assoc. f_equal. f_equal; lia.
Qed.

(** The statistics in closed form. *)
Lemma analyze_pr_stats_spec (events : list Event.t) :
  analyze_pr_stats events =
  let total := count is_pull_request events in
  let merged := count is_merged_pr events in
  let ds := durations_of events in
  {| total_prs := total;
     merged_prs := merged;
     merge_rate := if total =? 0 then None
                   else Some (inject_Z merged / inject_Z total)%Q;
     avg_time_to_merge_hours :=
       match ds with
       | [] => None
       | _ => let a := (Qsum ds / inject_Z (Z.of_nat (List.length ds)))%Q in
              if truthy_Q a then Some (round1 a) else None
       end |}.
Proof.
  unfold analyze_pr_stats. rewrite pr_fold. simpl.
  destruct (durations_of events); reflexivity.
Qed.

Lemma is_merged_pr_is_pr (e : Event.t) :
  is_merged_pr e = true -> is_pull_request e = true.
Proof. rewrite is_merged_pr_spec. now intros [H _]%andb_prop. Qed.

Lemma Qdiv_unit_interval (m t : Z) :
  0 <= m <= t -> 0 < t ->
  (0 <= inject_Z m / inject_Z t /\ inject_Z m / inject_Z t <= 1)%Q.
Proof.
  intros Hm Ht. destruct t as [|p|p]; try lia.
  unfold Qdiv, Qmult, Qinv, Qle, inject_Z; simpl. lia.
Qed.

(** C5.  [total_prs] counts the pull-request events whatever their action
    and [merged_prs] counts those that are closed with the merged flag set;
    the merge rate is null exactly when [total_prs] is 0, and is otherwise
    the quotient of the two counts, between 0 and 1. *)
Theorem analyze_pr_stats_merge_rate (events : list Event.t) :
  let r := analyze_pr_stats events in
  total_prs r = count is_pull_request events /\
  merged_prs r = count is_merged_pr events /\
  (merge_rate r = None <-> total_prs r = 0) /\
  (forall q, merge_rate r = Some q ->
             q = (inject_Z (merged_prs r) / inject_Z (total_prs r))%Q /\
             (0 <= q /\ q <= 1)%Q).
Proof.
  rewrite analyze_pr_stats_spec. cbv zeta. cbn [total_prs merged_prs merge_rate].
  pose proof (count_bounds is_pull_request events) as Ht.
  pose proof (count_bounds is_merged_pr events) as Hm.
  pose proof (count_le_mono is_merged_pr is_pull_request events is_merged_pr_is_pr) as Hle.
  split; [reflexivity|]. split; [reflexivity|].
  destruct (Z.eqb_spec (count is_pull_request events) 0) as [E|Hne].
  - split; [tauto|]. discriminate.
  - split; [split; [discriminate|contradiction]|].
    intros q [= <-]. split; [reflexivity|].
    apply Qdiv_unit_interval; lia.
Qed.

(** The scenario of the specification: a pull request merged 36 hours after
    it was opened. *)
Example analyze_pr_stats_scenario :
  analyze_pr_stats
    [Event.mk "PullRequestEvent" (Some "2024-01-02T12:00:00Z")
       (Some (Payload.mk None (Some "closed")
                (Some (PullRequest.mk (Some true)
                         (Some "2024-01-01T00:00:00Z")
                         (Some "2024-01-02T12:00:00Z")))))]
  = {| total_prs := 1; merged_prs := 1;
       merge_rate := Some (1 # 1); avg_time_to_merge_hours := Some (360 # 10) |}.
Proof. reflexivity. Qed.

(** When the durations do not average to zero, the reported figure is their
    mean rounded to one decimal. *)
Lemma avg_time_value (events : list Event.t) :
  let ds := durations_of events in
  let a := (Qsum ds / inject_Z (Z.of_nat (List.length ds)))%Q in
  ds <> [] -> ~ (a == 0)%Q ->
  avg_time_to_merge_hours (analyze_pr_stats events) = Some (round1 a).
Proof.
  cbv zeta. intros Hne Hnz. rewrite analyze_pr_stats_spec. cbv zeta.
  cbn [avg_time_to_merge_hours].
  destruct (durations_of events) as [|h ds] eqn:E; [contradiction|].
  unfold truthy_Q. destruct (Qeq_bool _ 0) eqn:Hq; [|reflexivity].
  apply Qeq_bool_iff in Hq. contradiction.
Qed.

(** The figure is null when there is no valid duration, and also when the
    durations average to zero. *)
Lemma avg_time_null_iff (events : list Event.t) :
  let ds := durations_of events in
  avg_time_to_merge_hours (analyze_pr_stats events) = None <->
  ds = [] \/ (Qsum ds / inject_Z (Z.of_nat (List.length ds)) == 0)%Q.
Proof.
  cbv zeta. rewrite analyze_pr_stats_spec. cbv zeta. cbn [avg_time_to_merge_hours].
  destruct (durations_of events) as [|h ds] eqn:E; [tauto|].
  unfold truthy_Q. destruct (Qeq_bool _ 0) eqn:Hq; cbn [negb].
  - apply Qeq_bool_iff in Hq. tauto.
  - split; [discriminate|]. intros [?|Hz]; [discriminate|].
    apply Qeq_bool_iff in Hz. congruence.
Qed.

(** C4 at the failing input: a pull request merged in the second it was
    opened.  Both timestamps parse and the duration, 0 hours, is computed
    and recorded, yet the reported average is null instead of 0.0. *)
Theorem analyze_pr_stats_zero_duration :
  let e := Event.mk "PullRequestEvent" (Some "2024-01-01T00:00:00Z")
             (Some (Payload.mk None (Some "closed")
                      (Some (PullRequest.mk (Some true)
                               (Some "2024-01-01T00:00:00Z")
                               (Some "2024-01-01T00:00:00Z"))))) in
  is_merged_pr e = true /\
  merge_duration (pr_of e) = Ret (0 # 3600) /\
  durations_of [e] = [0 # 3600] /\
  merged_prs (analyze_pr_stats [e]) = 1 /\
  avg_time_to_merge_hours (analyze_pr_stats [e]) = None.
Proof. cbv zeta. repeat split; reflexivity. Qed.

(** ** Malformed timestamps *)

(** A loop whose body raises at some element, whatever the variables hold,
    raises. *)
Lemma for_each_raises {A S : Type} (body : A -> S -> outcome S) (l : list A) :
  (forall x s, body x s <> OutOfFuel) ->
  (exists x, In x l /\ forall s, exists err, body x s = Raise err) ->
  forall s, exists err, for_each l s body = Raise err.
Proof.
  intros Hfuel. induction l as [|y l IH]; intros (x & Hin & Hx) s.
  - destruct Hin.
  - simpl. destruct (body y s) as [s'| err |] eqn:E; simpl.
    + destruct Hin as [->|Hin].
      * destruct (Hx s) as [err Herr]. congruence.
      * apply IH. now exists x.
    + now exists err.
    + now apply Hfuel in E.
Qed.

(** A loop over a list runs out of fuel only if its body does. *)
Lemma for_each_fuel {A S : Type} (body : A -> S -> outcome S) (l : list A) (s : S) :
  (forall x s, body x s <> OutOfFuel) -> for_each l s body <> OutOfFuel.
Proof.
  intros Hfuel. revert s. induction l as [|y l IH]; intros s; simpl; [discriminate|].
  destruct (body y s) as [s'|err|] eqn:E; simpl.
  - apply IH.
  - discriminate.
  - now apply Hfuel in E.
Qed.

Lemma parse_created_at_fuel (e : Event.t) : parse_created_at e <> OutOfFuel.
Proof.
  unfold parse_created_at, getitem, strptime.
  destruct (Event.created_at e) as [s|]; simpl; [|discriminate].
  destruct (match_format s) as [t|]; [|discriminate].
  destruct (valid_datetime t); discriminate.
Qed.

Lemma monthly_step_fuel (e : Event.t) (c : dict string Z) :
  monthly_step e c <> OutOfFuel.
Proof.
  unfold monthly_step. destruct (is_push e); [|discriminate].
  pose proof (parse_created_at_fuel e).
  destruct (parse_created_at e); simpl; congruence.
Qed.

Lemma commit_times_step_fuel (e : Event.t) (st : dict Z Z * dict string Z) :
  commit_times_step e st <> OutOfFuel.
Proof.
  unfold commit_times_step. destruct st as [h d].
  destruct (is_push e); [|discriminate].
  pose proof (parse_created_at_fuel e).
  destruct (parse_created_at e); simpl; congruence.
Qed.

Lemma monthly_group_raises (events : list Event.t) (e : Event.t) (err : exn) :
  In e events -> is_push e = true -> parse_created_at e = Raise err ->
  exists err', monthly_group events = Raise err'.
Proof.
  intros Hin Hpush Hbad. unfold monthly_group.
  apply for_each_raises; [exact monthly_step_fuel|].
  exists e. split; [exact Hin|]. intros c. unfold monthly_step.
  rewrite Hpush, Hbad. now exists err.
Qed.

(** The time-based reducers stop with an exception as soon as a push event
    carries a timestamp that does not parse. *)
Lemma time_reducers_raise (events : list Event.t) (e : Event.t) (err : exn) :
  In e events -> is_push e = true -> parse_created_at e = Raise err ->
  (exists err', analyze_commit_times events = Raise err') /\
  (forall now months, exists err',
      analyze_monthly_commits now events months = Raise err').
Proof.
  intros Hin Hpush Hbad. split.
  - apply for_each_raises; [exact commit_times_step_fuel|].
    exists e. split; [exact Hin|]. intros [h d]. unfold commit_times_step.
    rewrite Hpush, Hbad. now exists err.
  - intros now months.
    destruct (monthly_group_raises events e err Hin Hpush Hbad) as [err' Herr].
    exists err'. unfold analyze_monthly_commits. rewrite Herr. reflexivity.
Qed.

(** Events of another type are passed over without a look at their
    timestamp. *)
Lemma time_reducers_skip_other_types (e : Event.t)
    (st : dict Z Z * dict string Z) (c : dict string Z) :
  is_push e = false ->
  commit_times_step e st = Ret st /\ monthly_step e c = Ret c.
Proof.
  intros Hp. unfold commit_times_step, monthly_step. rewrite Hp.
  now destruct st.
Qed.

(** The activity histogram counts every event under its type. *)
Lemma activity_fold (events : list Event.t) (d : dict string Z) (k : string) :
  get0 k (fold_left activity_step events d) =
  get0 k d + count (fun e => String.eqb k (Event.type e)) events.
Proof.
  revert d. induction events as [|e events IH]; intros d; simpl.
  - rewrite count_nil. lia.
  - rewrite IH, count_cons. unfold activity_step.
    rewrite (get0_dict_add k (Event.type e) 1 d). simpl key_eqb. lia.
Qed.

Lemma analyze_activity_types_counts (events : list Event.t) (k : string) :
  get0 k (analyze_activity_types events) =
  count (fun e => String.eqb k (Event.type e)) events.
Proof. unfold analyze_activity_types. now rewrite activity_fold. Qed.

(** C3 at the failing input: one push event whose timestamp is not in the
    expected format.  The activity histogram counts it, but both time-based
    reducers raise the parser's [ValueError] instead of skipping it. *)
Theorem malformed_push_timestamp :
  let e := Event.mk "PushEvent" (Some "2024/01/15 10:00") None in
  strptime "2024/01/15 10:00" = Raise ValueError /\
  analyze_commit_times [e] = Raise ValueError /\
  (forall now months, analyze_monthly_commits now [e] months = Raise ValueError) /\
  analyze_activity_types [e] = [("PushEvent", 1)].
Proof. cbv zeta. repeat split; reflexivity. Qed.

(** ** Year-month keys *)

Lemma digit_char_ok (d : Z) :
  0 <= d < 10 -> is_digit (digit_char d) = true /\ digit_value (digit_char d) = d.
Proof.
  intros Hd.
  assert (d = 0 \/ d = 1 \/ d = 2 \/ d = 3 \/ d = 4 \/
          d = 5 \/ d = 6 \/ d = 7 \/ d = 8 \/ d = 9) as Hcases by lia.
  repeat (destruct Hcases as [->|Hcases]; [split; reflexivity|]).
  subst. split; reflexivity.
Qed.

Lemma digit_char_compare (a b : Z) :
  0 <= a < 10 -> 0 <= b < 10 ->
  Ascii.compare (digit_char a) (digit_char b) = (a ?= b).
Proof.
  intros Ha Hb. unfold Ascii.compare, digit_char.
  rewrite !N_ascii_embedding by lia.
  rewrite <- N2Z.inj_compare, !N2Z.inj_add, !Z2N.id by lia.
  apply Z.add_compare_mono_l.
Qed.

(** The seven characters of a key, from the digits of year and month. *)
Definition key_of_digits (y3 y2 y1 y0 m1 m0 : Z) : string :=
  String (digit_char y3) (String (digit_char y2) (String (digit_char y1)
    (String (digit_char y0) (String "-"%char
      (String (digit_char m1) (String (digit_char m0) EmptyString)))))).

Lemma strftime_Ym_digits (t : datetime) :
  strftime_Ym t =
  key_of_digits (year t / 1000 mod 10) (year t / 100 mod 10)
    (year t / 10 mod 10) (year t mod 10) (month t / 10 mod 10) (month t mod 10).
Proof. reflexivity. Qed.

Lemma span_digits_digit (d : Z) (r : string) :
  0 <= d < 10 ->
  span_digits (String (digit_char d) r) =
  let '(ds, rest) := span_digits r in (d :: ds, rest).
Proof.
  intros Hd. destruct (digit_char_ok d Hd) as [H1 H2].
  cbn [span_digits]. rewrite H1, H2. reflexivity.
Qed.

Lemma decode_key_of_digits (y3 y2 y1 y0 m1 m0 : Z) :
  0 <= y3 < 10 -> 0 <= y2 < 10 -> 0 <= y1 < 10 -> 0 <= y0 < 10 ->
  0 <= m1 < 10 -> 0 <= m0 < 10 ->
  decode_ym (key_of_digits y3 y2 y1 y0 m1 m0) =
  Some (((y3 * 10 + y2) * 10 + y1) * 10 + y0, m1 * 10 + m0).
Proof.
  intros. unfold decode_ym, field_exact, key_of_digits.
  rewrite !span_digits_digit by assumption.
  change (span_digits (String "-"%char ?r)) with (@nil Z, String "-"%char r).
  cbv iota beta. cbn [List.length Nat.eqb digits_value fold_left].
  rewrite !span_digits_digit by assumption.
  reflexivity.
Qed.

Lemma decode_strftime_Ym (t : datetime) :
  0 <= year t <= 9999 -> 0 <= month t <= 99 ->
  decode_ym (strftime_Ym t) = Some (year t, month t).
Proof.
  intros Hy Hm. rewrite strftime_Ym_digits, decode_key_of_digits;
    try (apply Z.mod_pos_bound; lia).
  f_equal. f_equal; Z.div_mod_to_equations; lia.
Qed.

Lemma key_of_digits_compare (y3 y2 y1 y0 m1 m0 z3 z2 z1 z0 n1 n0 : Z) :
  0 <= y3 < 10 -> 0 <= y2 < 10 -> 0 <= y1 < 10 -> 0 <= y0 < 10 ->
  0 <= m1 < 10 -> 0 <= m0 < 10 ->
  0 <= z3 < 10 -> 0 <= z2 < 10 -> 0 <= z1 < 10 -> 0 <= z0 < 10 ->
  0 <= n1 < 10 -> 0 <= n0 < 10 ->
  String.compare (key_of_digits y3 y2 y1 y0 m1 m0)
                 (key_of_digits z3 z2 z1 z0 n1 n0) = Lt ->
  let y := ((y3 * 10 + y2) * 10 + y1) * 10 + y0 in
  let z := ((z3 * 10 + z2) * 10 + z1) * 10 + z0 in
  y < z \/ (y = z /\ m1 * 10 + m0 < n1 * 10 + n0).
Proof.
  intros. revert H11. unfold key_of_digits. cbn [String.compare].
  rewrite !digit_char_compare by assumption.
  change (Ascii.compare "-" "-") with Eq. cbv iota.
  destruct (Z.compare_spec y3 z3); try discriminate; [|intros _; lia].
  destruct (Z.compare_spec y2 z2); try discriminate; [|intros _; lia].
  destruct (Z.compare_spec y1 z1); try discriminate; [|intros _; lia].
  destruct (Z.compare_spec y0 z0); try discriminate; [|intros _; lia].
  destruct (Z.compare_spec m1 n1); try discriminate; [|intros _; lia].
  destruct (Z.compare_spec m0 n0); try discriminate. intros _; lia.
Qed.

(** On the keys [strftime] produces, the order of strings is the order of
    the calendar. *)
Lemma strftime_Ym_chron (t1 t2 : datetime) :
  valid_datetime t1 = true -> valid_datetime t2 = true ->
  String.compare (strftime_Ym t1) (strftime_Ym t2) = Lt ->
  chron_lt (strftime_Ym t1) (strftime_Ym t2).
Proof.
  unfold valid_datetime, valid_date. intros V1 V2 Hlt.
  assert (1 <= year t1 <= 9999 /\ 1 <= month t1 <= 12) as [Hy1 Hm1] by lia.
  assert (1 <= year t2 <= 9999 /\ 1 <= month t2 <= 12) as [Hy2 Hm2] by lia.
  unfold chron_lt. rewrite !decode_strftime_Ym by lia.
  rewrite !strftime_Ym_digits in Hlt.
  apply key_of_digits_compare in Hlt; try (apply Z.mod_pos_bound; lia).
  cbv zeta in Hlt. Z.div_mod_to_equations. lia.
Qed.

Lemma strftime_Ym_valid (t : datetime) :
  valid_datetime t = true -> valid_year_month (strftime_Ym t) = true.
Proof.
  unfold valid_datetime, valid_date, valid_year_month. intros V.
  rewrite decode_strftime_Ym by lia. lia.
Qed.

Lemma strptime_valid (s : string) (t : datetime) :
  strptime s = Ret t -> valid_datetime t = true.
Proof.
  unfold strptime. destruct (match_format s) as [t'|]; [|discriminate].
  destruct (valid_datetime t') eqn:V; [|discriminate]. now intros [= <-].
Qed.

Lemma parse_created_at_valid (e : Event.t) (t : datetime) :
  parse_created_at e = Ret t -> valid_datetime t = true.
Proof.
  unfold parse_created_at, getitem.
  destruct (Event.created_at e) as [s|]; simpl; [apply strptime_valid|discriminate].
Qed.

(** ** The monthly trend: grouping *)

Lemma month_total_nil (k : string) : month_total k [] = 0.
Proof. reflexivity. Qed.

Lemma month_total_cons (k : string) (e : Event.t) (events : list Event.t) :
  month_total k (e :: events) =
  (if in_month k e then or_one (commit_count e) else 0) + month_total k events.
Proof.
  unfold month_total. simpl filter. destruct (in_month k e); simpl map.
  - now rewrite Zsum_cons.
  - lia.
Qed.

Lemma commit_count_nonneg (e : Event.t) : 0 <= commit_count e.
Proof. unfold commit_count. destruct (Payload.commits (payload_of e)); lia. Qed.

Lemma or_one_pos (n : Z) : 0 <= n -> 1 <= or_one n.
Proof. unfold or_one. destruct (Z.eqb_spec n 0); lia. Qed.

(** What one iteration does when it does not raise. *)
Lemma monthly_step_ret (e : Event.t) (c c' : dict string Z) :
  monthly_step e c = Ret c' ->
  match month_key e with
  | Some k => is_push e = true /\ c' = dict_add k (or_one (commit_count e)) c
  | None => is_push e = false /\ c' = c
  end.
Proof.
  unfold monthly_step, month_key. destruct (is_push e).
  - destruct (parse_created_at e) as [t|err|]; simpl; try discriminate.
    intros [= <-]. now split.
  - intros [= <-]. now split.
Qed.

Lemma month_key_parses (e : Event.t) (k : string) :
  month_key e = Some k ->
  exists t, parse_created_at e = Ret t /\ k = strftime_Ym t.
Proof.
  unfold month_key. destruct (is_push e); [|discriminate].
  destruct (parse_created_at e) as [t| |]; try discriminate.
  intros [= <-]. now exists t.
Qed.

Lemma group_fold (events : list Event.t) (c c' : dict string Z) :
  for_each events c monthly_step = Ret c' ->
  (forall e, In e events -> is_push e = true ->
             exists t, parse_created_at e = Ret t) /\
  (forall k, get0 k c' = get0 k c + month_total k events) /\
  (forall k, In k (keys c') <->
             In k (keys c) \/ exists e, In e events /\ month_key e = Some k) /\
  (NoDup (keys c) -> NoDup (keys c')) /\
  (Forall (fun v => 1 <= v) (values c) -> Forall (fun v => 1 <= v) (values c')).
Proof.
  revert c. induction events as [|e events IH]; intros c; cbn [for_each].
  - intros [= <-]. split; [intros e []|]. split; [intros k; rewrite month_total_nil; lia|].
    split; [|tauto]. intros k. split; [now left|]. now intros [Hin|(e & [] & _)].
  - destruct (monthly_step e c) as [c1|err|] eqn:Hstep; cbn [obind]; try discriminate.
    intros Hrest. destruct (IH c1 Hrest) as (Hp & Hg & Hk & Hn & Hv).
    apply monthly_step_ret in Hstep.
    destruct (month_key e) as [k0|] eqn:Hkey; destruct Hstep as [Hpush ->].
    + destruct (month_key_parses e k0 Hkey) as (t & Ht & _).
      split; [|split; [|split; [|split]]].
      * intros e' [<-|Hin] Hpe; [now exists t|now apply Hp].
      * intros k. rewrite Hg, month_total_cons.
        rewrite (get0_dict_add k k0 (or_one (commit_count e)) c).
        unfold in_month. rewrite Hkey. simpl key_eqb. lia.
      * intros k. rewrite Hk, keys_dict_add. split.
        -- intros [[->|Hin]|(e' & Hin & He')]; eauto 6 using in_eq, in_cons.
        -- intros [Hin|(e' & [<-|Hin] & He')]; eauto 6.
           left. left. congruence.
      * intros Hnd. apply Hn. now apply NoDup_dict_add.
      * intros Hall. apply Hv. apply dict_add_values_pos; [|exact Hall].
        apply or_one_pos, commit_count_nonneg.
    + split; [|split; [|split; [|split]]].
      * intros e' [<-|Hin] Hpe; [congruence|now apply Hp].
      * intros k. rewrite Hg, month_total_cons. unfold in_month. rewrite Hkey. lia.
      * intros k. rewrite Hk. split.
        -- intros [Hin|(e' & Hin & He')]; eauto 6 using in_cons.
        -- intros [Hin|(e' & [<-|Hin] & He')]; eauto 6. congruence.
      * exact Hn.
      * exact Hv.
Qed.

Lemma group_total (events : list Event.t) (c : dict string Z) :
  (forall e, In e events -> is_push e = true ->
             exists t, parse_created_at e = Ret t) ->
  exists c', for_each events c monthly_step = Ret c'.
Proof.
  revert c. induction events as [|e events IH]; intros c Hall; cbn [for_each].
  - now exists c.
  - assert (exists c1, monthly_step e c = Ret c1) as [c1 ->].
    { unfold monthly_step. destruct (is_push e) eqn:Hp; [|now exists c].
      destruct (Hall e (in_eq _ _) Hp) as [t ->]. simpl. eauto. }
    cbn [obind]. apply IH. intros e' Hin. apply Hall. now right.
Qed.

(** ** The order of the items *)

Lemma item_le_total (a b : string * Z) : item_le a b = true \/ item_le b a = true.
Proof.
  unfold item_le. rewrite (String.compare_antisym (fst b) (fst a)).
  destruct (String.compare (fst a) (fst b)); simpl; lia.
Qed.

Lemma string_lt_trans (x y z : string) :
  String.compare x y = Lt -> String.compare y z = Lt -> String.compare x z = Lt.
Proof.
  change String.compare with String_as_OT.cmp.
  rewrite !String_as_OT.cmp_lt. apply String_as_OT.lt_trans.
Qed.

Lemma item_le_trans (a b c : string * Z) :
  item_le a b = true -> item_le b c = true -> item_le a c = true.
Proof.
  unfold item_le. destruct a as [ka va], b as [kb vb], c as [kc vc]; simpl.
  destruct (String.compare ka kb) eqn:Hab; try discriminate;
    destruct (String.compare kb kc) eqn:Hbc; try discriminate; intros H1 H2.
  - apply String.compare_eq_iff in Hab, Hbc. subst.
    pose proof (proj2 (String_as_OT.cmp_eq kc kc) eq_refl) as Hrefl.
    change String_as_OT.cmp with String.compare in Hrefl. rewrite Hrefl. lia.
  - apply String.compare_eq_iff in Hab. subst. now rewrite Hbc.
  - apply String.compare_eq_iff in Hbc. subst. now rewrite Hab.
  - now rewrite (string_lt_trans ka kb kc Hab Hbc).
Qed.

Lemma StronglySorted_strict (l : list (string * Z)) :
  StronglySorted (fun a b => item_le a b = true) l -> NoDup (keys l) ->
  StronglySorted (fun a b => String.compare (fst a) (fst b) = Lt) l.
Proof.
  induction 1 as [|a l Hs IH Hall]; intros Hnd; [constructor|].
  simpl in Hnd. inversion Hnd as [|? ? Hnotin Hnd']; subst.
  constructor; [now apply IH|].
  rewrite Forall_forall in *. intros b Hb. specialize (Hall b Hb).
  unfold item_le in Hall.
  destruct (String.compare (fst a) (fst b)) eqn:E; try discriminate; [|reflexivity].
  apply String.compare_eq_iff in E. exfalso. apply Hnotin.
  rewrite E. unfold keys. now apply in_map.
Qed.

Lemma sorted_items (d : dict string Z) :
  NoDup (keys d) ->
  StronglySorted (fun a b => String.compare (fst a) (fst b) = Lt) (sorted item_le d).
Proof.
  intros Hnd. apply StronglySorted_strict.
  - apply sorted_StronglySorted; [exact item_le_total|exact item_le_trans].
  - unfold keys. eapply Permutation_NoDup; [|exact Hnd].
    apply Permutation_map, sorted_perm.
Qed.

(** ** The monthly trend: back-fill *)

Lemma range_nonpos (n : Z) : n <= 0 -> range n = [].
Proof. intros Hn. unfold range. now replace (Z.to_nat n) with O by lia. Qed.

Lemma range_pos (n : Z) : 0 < n -> exists r, range n = 0 :: r.
Proof.
  intros Hn. unfold range. destruct (Z.to_nat n) as [|k] eqn:E; [lia|].
  simpl. eauto.
Qed.

Lemma load_timedelta : load_global "timedelta" = Raise (NameError "timedelta").
Proof. reflexivity. Qed.

Lemma monthly_backfill_nonpos (now : datetime) (months : Z) (c : dict string Z) :
  months <= 0 -> monthly_backfill now months c = Ret c.
Proof. intros Hm. unfold monthly_backfill. now rewrite range_nonpos. Qed.

Lemma monthly_backfill_pos (now : datetime) (months : Z) (c : dict string Z) :
  0 < months -> monthly_backfill now months c = Raise (NameError "timedelta").
Proof.
  intros Hm. unfold monthly_backfill. destruct (range_pos months Hm) as [r ->].
  cbn [for_each]. unfold backfill_step. rewrite load_timedelta. reflexivity.
Qed.

Lemma StronglySorted_In_impl {A : Type} (R R' : A -> A -> Prop) (l : list A) :
  (forall a b, In a l -> In b l -> R a b -> R' a b) ->
  StronglySorted R l -> StronglySorted R' l.
Proof.
  intros Himpl Hs. induction Hs as [|a l Hs IH Hall]; [constructor|].
  constructor.
  - apply IH. intros x y Hx Hy. apply Himpl; now right.
  - rewrite Forall_forall in *. intros b Hb.
    apply Himpl; [now left|now right|now apply Hall].
Qed.

Lemma get0_In (d : dict string Z) (k : string) (v : Z) :
  NoDup (keys d) -> In (k, v) d -> get0 k d = v.
Proof.
  unfold get0. induction d as [|[k' v'] d IH]; simpl; intros Hnd Hin; [destruct Hin|].
  inversion Hnd as [|? ? Hnotin Hnd']; subst.
  destruct Hin as [[= -> ->]|Hin].
  - now rewrite String.eqb_refl.
  - destruct (String.eqb_spec k k') as [->|Hne]; [|now apply IH].
    exfalso. apply Hnotin. change k' with (fst (k', v)). now apply in_map.
Qed.

Lemma monthly_group_total (events : list Event.t) :
  (forall e, In e events -> is_push e = true ->
             exists t, parse_created_at e = Ret t) ->
  exists c, monthly_group events = Ret c.
Proof. unfold monthly_group. apply group_total. Qed.

(** What [analyze_monthly_commits] returns, when it returns. *)
Lemma analyze_monthly_commits_ret (now : datetime) (events : list Event.t)
    (months : Z) (m : dict string Z) :
  analyze_monthly_commits now events months = Ret m ->
  months <= 0 /\
  exists c, monthly_group events = Ret c /\ m = sorted item_le c.
Proof.
  unfold analyze_monthly_commits.
  destruct (monthly_group events) as [c|err|]; cbn [obind]; try discriminate.
  destruct (Z_le_gt_dec months 0) as [Hle|Hgt].
  - rewrite monthly_backfill_nonpos by exact Hle. cbn [obind].
    intros [= <-]. split; [exact Hle|]. now exists c.
  - rewrite monthly_backfill_pos by lia. discriminate.
Qed.

(** What the last line makes of the counts of the grouping loop: the items
    in strictly increasing chronological order of their keys, one for each
    year-month in which a push event falls, each key a valid year-month
    string and each value the commits pushed in that month, at least 1. *)
Lemma monthly_group_sorted (events : list Event.t) (c : dict string Z) :
  monthly_group events = Ret c ->
  let m := sorted item_le c in
  StronglySorted (fun a b => chron_lt (fst a) (fst b)) m /\
  NoDup (keys m) /\
  (forall k, In k (keys m) <->
             exists e, In e events /\ month_key e = Some k) /\
  (forall k v, In (k, v) m ->
               valid_year_month k = true /\ 1 <= v /\
               v = month_total k events).
Proof.
  intros Hc. cbv zeta.
  destruct (group_fold events [] c Hc) as (_ & Hg & Hk & Hn & Hv).
  specialize (Hn (NoDup_nil _)). specialize (Hv (Forall_nil _)).
  pose proof (sorted_perm item_le c) as Hperm.
  assert (forall k, In k (keys (sorted item_le c)) <-> In k (keys c)) as Hkeys.
  { intros k. unfold keys. split; apply Permutation_in, Permutation_map;
      [symmetry|]; exact Hperm. }
  assert (forall k, In k (keys c) ->
                    exists t, valid_datetime t = true /\ k = strftime_Ym t) as Hvalid.
  { intros k Hin. apply Hk in Hin as [[]|(e & _ & He)].
    apply month_key_parses in He as (t & Ht & ->).
    exists t. split; [now apply parse_created_at_valid in Ht|reflexivity]. }
  split; [|split; [|split]].
  + eapply StronglySorted_In_impl; [|apply sorted_items, Hn].
    intros a b Ha Hb Hlt.
    destruct (Hvalid (fst a)) as (ta & Va & Ea);
      [apply Hkeys; unfold keys; now apply in_map|].
    destruct (Hvalid (fst b)) as (tb & Vb & Eb);
      [apply Hkeys; unfold keys; now apply in_map|].
    cbv beta in Hlt |- *. rewrite Ea, Eb in Hlt. rewrite Ea, Eb.
    apply strftime_Ym_chron; assumption.
  + unfold keys. eapply Permutation_NoDup; [|exact Hn].
    apply Permutation_map, Hperm.
  + intros k. rewrite Hkeys, Hk. split; [|eauto].
    now intros [[]|He].
  + intros k v Hin. apply (Permutation_in _ (Permutation_sym Hperm)) in Hin.
    assert (In k (keys c)) as Hkin
      by (unfold keys; change k with (fst (k, v)); now apply in_map).
    destruct (Hvalid k Hkin) as (t & Vt & ->).
    split; [now apply strftime_Ym_valid|].
    rewrite <- (get0_In c _ v Hn Hin), <- (Z.add_0_l (month_total _ events)).
    split; [|exact (Hg (strftime_Ym t))].
    rewrite (get0_In c _ v Hn Hin).
    rewrite Forall_forall in Hv. apply Hv. unfold values.
    change v with (snd (strftime_Ym t, v)). now apply in_map.
Qed.

(** C1 at the failing input: one push of three commits in January 2024 and
    the default month count of 12.  The grouping loop gets through and
    holds the entry of January, but the back-fill raises the [NameError] on
    [timedelta] at its first iteration, whatever the date is: no mapping is
    returned, where the claim has one of twelve entries. *)
Theorem analyze_monthly_commits_default_months :
  let e := Event.mk "PushEvent" (Some "2024-01-15T10:00:00Z")
             (Some (Payload.mk
                      (Some [Commit.mk "a"; Commit.mk "b"; Commit.mk "c"])
                      None None)) in
  monthly_group [e] = Ret [("2024-01", 3)] /\
  forall now, analyze_monthly_commits now [e] 12 = Raise (NameError "timedelta").
Proof. cbv zeta. split; [reflexivity|]. intros now. reflexivity. Qed.

(** The scenario of the specification: three commits pushed on Monday 15
    January 2024 at 10 o'clock. *)
Example analyze_commit_times_scenario :
  analyze_commit_times
    [Event.mk "PushEvent" (Some "2024-01-15T10:00:00Z")
       (Some (Payload.mk (Some [Commit.mk "a"; Commit.mk "b"; Commit.mk "c"])
                None None))]
  = Ret ([(10, 1)], [("Monday", 1)]).
Proof. reflexivity. Qed.

(** With [timedelta] at hand the back-fill still would not list the
    trailing months one by one: it steps by 30 days.  From March 2026 and
    for four months it reaches 30 January (skipping February), 31 December
    and 1 December, three months in all. *)
Example backfill_month_thirty_day_steps :
  for_each (range 4) [] (backfill_month (mkdatetime 2026 3 15 0 0 0))
  = Ret [("2026-03", 0); ("2026-01", 0); ("2025-12", 0)].
Proof. reflexivity. Qed.

(** ** No events *)

(** C8, as amended.  On the empty event list the two commit-time
    histograms are empty, the pull-request statistics show no pull request
    and a null merge rate, and the monthly trend is the empty mapping
    exactly when the month count is 0 or less. *)
Theorem empty_events (now : datetime) (months : Z) :
  analyze_commit_times [] = Ret ([], []) /\
  total_prs (analyze_pr_stats []) = 0 /\
  merge_rate (analyze_pr_stats []) = None /\
  (analyze_monthly_commits now [] months = Ret [] <-> months <= 0).
Proof.
  split; [reflexivity|]. split; [reflexivity|]. split; [reflexivity|].
  unfold analyze_monthly_commits. change (monthly_group []) with (@Ret (dict string Z) []).
  cbn [obind]. destruct (Z_le_gt_dec months 0) as [Hle|Hgt].
  - rewrite monthly_backfill_nonpos by exact Hle. simpl. tauto.
  - rewrite monthly_backfill_pos by lia. simpl. split; [discriminate|lia].
Qed.

(** The instance of the theorem at a month count of 0. *)
Lemma empty_events_witness :
  analyze_monthly_commits (mkdatetime 2024 6 1 0 0 0) [] 0 = Ret [].
Proof.
  apply (proj2 (proj2 (proj2 (proj2 (empty_events (mkdatetime 2024 6 1 0 0 0) 0))))).
  lia.
Defined.

(** C8 as stated fails: with the default month count the monthly trend of
    the empty event list is not the empty mapping. *)
Lemma empty_events_monthly_default :
  analyze_monthly_commits (mkdatetime 2024 6 1 0 0 0) [] 12 <> Ret [].
Proof. discriminate. Qed.

(** ** The monthly trend with a positive month count *)

Lemma group_raise_inv (events : list Event.t) (c : dict string Z) (err : exn) :
  for_each events c monthly_step = Raise err ->
  exists e, In e events /\ is_push e = true /\ parse_created_at e = Raise err.
Proof.
  revert c. induction events as [|e events IH]; intros c; cbn [for_each]; [discriminate|].
  destruct (monthly_step e c) as [c1|err1|] eqn:Hstep; cbn [obind].
  - intros Hrest. destruct (IH c1 Hrest) as (e' & Hin & He'). exists e'.
    split; [now right|exact He'].
  - intros [= ->]. exists e. split; [now left|].
    unfold monthly_step in Hstep. destruct (is_push e); [|discriminate].
    split; [reflexivity|].
    destruct (parse_created_at e); simpl in Hstep; congruence.
  - now apply monthly_step_fuel in Hstep.
Qed.

Lemma commit_times_parses (events : list Event.t)
    (st r : dict Z Z * dict string Z) :
  for_each events st commit_times_step = Ret r ->
  forall e, In e events -> is_push e = true ->
            exists t, parse_created_at e = Ret t.
Proof.
  revert st. induction events as [|e events IH]; intros st; cbn [for_each].
  - intros _ e [].
  - destruct (commit_times_step e st) as [st1|err|] eqn:Hstep; cbn [obind];
      try discriminate.
    intros Hrest e' [<-|Hin] Hpush; [|now apply (IH st1 Hrest)].
    unfold commit_times_step in Hstep. destruct st as [h d].
    rewrite Hpush in Hstep.
    destruct (parse_created_at e) as [t| |]; simpl in Hstep; try discriminate.
    now exists t.
Qed.

(** With a positive month count the call raises: the [NameError] when the
    grouping loop gets through, the exception of that loop otherwise. *)
Lemma monthly_commits_raises (now : datetime) (events : list Event.t)
    (months : Z) :
  0 < months ->
  (exists err,
      analyze_monthly_commits now events months = Raise err /\
      (err = NameError "timedelta" \/
       exists e, In e events /\ is_push e = true /\
                 parse_created_at e = Raise err)) /\
  ((forall e, In e events -> is_push e = true ->
              exists t, parse_created_at e = Ret t) ->
   analyze_monthly_commits now events months = Raise (NameError "timedelta")) /\
  (forall r, analyze_commit_times events = Ret r ->
             analyze_monthly_commits now events months
             = Raise (NameError "timedelta")).
Proof.
  intros Hpos.
  assert ((forall e, In e events -> is_push e = true ->
                     exists t, parse_created_at e = Ret t) ->
          analyze_monthly_commits now events months
          = Raise (NameError "timedelta")) as Hparse.
  { intros Hall. unfold analyze_monthly_commits.
    destruct (monthly_group_total events Hall) as [c ->]. cbn [obind].
    now rewrite monthly_backfill_pos. }
  split; [|split; [exact Hparse|]].
  - unfold analyze_monthly_commits.
    destruct (monthly_group events) as [c|err|] eqn:Hg; cbn [obind].
    + rewrite monthly_backfill_pos by exact Hpos. cbn [obind]. eauto.
    + exists err. split; [reflexivity|]. right.
      now apply group_raise_inv in Hg.
    + exfalso. revert Hg. unfold monthly_group.
      apply for_each_fuel. exact monthly_step_fuel.
  - intros r Hr. apply Hparse. exact (commit_times_parses events _ r Hr).
Qed.

(** ** The run *)

Lemma last_app_cons {A : Type} (l r : list A) (x d : A) :
  last (l ++ x :: r) d = last (x :: r) d.
Proof.
  induction l as [|y l IH]; [reflexivity|].
  simpl app. rewrite <- IH. simpl. destruct (l ++ x :: r)%list eqn:E; [|reflexivity].
  now destruct l.
Qed.

Section RunFacts.
Variable World : Type.
Variable transport : string -> Headers -> World -> option Response * World.
Variable utcnow : World -> datetime.
Variable localnow : World -> datetime.

Local Abbreviation M := (M World).
Local Abbreviation State := (State World).

Lemma mbind_ret_inv {A B : Type} (m : M A) (k : A -> M B)
    (st st' : State) (b : B) :
  mbind World m k st = (Ret b, st') ->
  exists a st1, m st = (Ret a, st1) /\ k a st1 = (Ret b, st').
Proof.
  unfold mbind. destruct (m st) as [[a|err|] st1]; try discriminate.
  intros Hk. now exists a, st1.
Qed.

(** *** Repository health *)

Lemma probe_spec (self : GitHubAnalytics) (url : string) (st : State) :
  exists n st', probe World transport self url st = (Ret n, st') /\ 0 <= n <= 1.
Proof.
  unfold probe, try_except, mbind, requests_get, mret.
  destruct (transport url (headers self) (fst st)) as [[r|] w'].
  - destruct (status_code r =? 200); eexists _, _; (split; [reflexivity|lia]).
  - eexists _, _. split; [reflexivity|lia].
Qed.

(** The fallback path is requested only after the first probe was
    answered with another status than 200. *)
Lemma probe_tests_spec (self : GitHubAnalytics) (base : string) (st : State) :
  exists n st',
    probe_tests World transport self base st = (Ret n, st') /\ 0 <= n <= 1 /\
    (forall r w1,
        transport (base ++ "/tests") (headers self) (fst st) = (Some r, w1) ->
        status_code r = 200 ->
        n = 1 /\
        st' = (w1, (snd st ++ [EGet (base ++ "/tests") (headers self)])%list)).
Proof.
  unfold probe_tests, try_except, mbind, requests_get, mret.
  destruct (transport (base ++ "/tests") (headers self) (fst st)) as [[r|] w1].
  - destruct (Z.eqb_spec (status_code r) 200) as [E|Hne].
    + eexists _, _. split; [reflexivity|]. split; [lia|].
      intros r' w1' [= <- <-] _. now split.
    + cbn [fst snd].
      destruct (transport (base ++ "/test") (headers self) w1) as [[r2|] w2].
      * destruct (status_code r2 =? 200); eexists _, _;
          (split; [reflexivity|]; split; [lia|]);
          intros r' w1' [= <- <-] E; contradiction.
      * eexists _, _. split; [reflexivity|]. split; [lia|].
        intros r' w1' [= <- <-] E; contradiction.
  - eexists _, _. split; [reflexivity|]. split; [lia|]. discriminate.
Qed.

Lemma health_step_spec (self : GitHubAnalytics) (repo : Repo.t)
    (a : HealthAcc) (st : State) :
  exists a' st',
    health_step World transport self repo a st = (Ret a', st') /\
    acc_readme a <= acc_readme a' <= acc_readme a + 1 /\
    acc_ci a <= acc_ci a' <= acc_ci a + 1 /\
    acc_tests a <= acc_tests a' <= acc_tests a + 1 /\
    acc_license a <= acc_license a' <= acc_license a + 1.
Proof.
  unfold health_step.
  set (base := (base_url self ++ "/repos/" ++ fmt_opt (owner_login repo)
                ++ "/" ++ Repo.name repo ++ "/contents")%string).
  destruct (probe_spec self (base ++ "/README.md") st) as (n1 & st1 & H1 & B1).
  destruct (probe_spec self (base ++ "/.github/workflows") st1) as (n2 & st2 & H2 & B2).
  destruct (probe_tests_spec self base st2) as (n3 & st3 & H3 & B3 & _).
  unfold mbind at 1. rewrite H1. unfold mbind at 1. rewrite H2.
  unfold mbind at 1. rewrite H3. unfold mret.
  eexists _, _. split; [reflexivity|]. cbn [acc_readme acc_ci acc_tests acc_license].
  destruct (Repo.license repo); lia.
Qed.

Lemma health_loop_spec (self : GitHubAnalytics) (repos : list Repo.t)
    (a : HealthAcc) (st : State) :
  let n := Z.of_nat (List.length repos) in
  exists a' st',
    health_loop World transport self repos a st = (Ret a', st') /\
    acc_readme a <= acc_readme a' <= acc_readme a + n /\
    acc_ci a <= acc_ci a' <= acc_ci a + n /\
    acc_tests a <= acc_tests a' <= acc_tests a + n /\
    acc_license a <= acc_license a' <= acc_license a + n.
Proof.
  cbv zeta. revert a st. induction repos as [|repo repos IH]; intros a st.
  - exists a, st. split; [reflexivity|]. simpl. lia.
  - cbn [health_loop].
    destruct (health_step_spec self repo a st) as (a1 & st1 & H1 & B1).
    destruct (IH a1 st1) as (a2 & st2 & H2 & B2).
    exists a2, st2. unfold mbind. rewrite H1. split; [exact H2|].
    cbn [List.length]. lia.
Qed.

(** C10.  [analyze_repo_health] always returns; it reports as many
    repositories checked as the collection has, and each of its four
    counts lies between 0 and that number.  In the probe of the tests
    directory the singular path is requested only when the plural one was
    not answered with success, so the probe adds at most 1. *)
Theorem analyze_repo_health_bounds (self : GitHubAnalytics)
    (repos : list Repo.t) (st : State) :
  (exists r st',
      analyze_repo_health World transport self repos st = (Ret r, st') /\
      RepoHealth.total_repos_checked r = Z.of_nat (List.length repos) /\
      0 <= RepoHealth.has_readme r <= RepoHealth.total_repos_checked r /\
      0 <= RepoHealth.has_ci r <= RepoHealth.total_repos_checked r /\
      0 <= RepoHealth.has_tests r <= RepoHealth.total_repos_checked r /\
      0 <= RepoHealth.has_license r <= RepoHealth.total_repos_checked r) /\
  (forall base st0, exists n st1,
      probe_tests World transport self base st0 = (Ret n, st1) /\
      0 <= n <= 1 /\
      (forall r w1,
          transport (base ++ "/tests") (headers self) (fst st0) = (Some r, w1) ->
          status_code r = 200 ->
          n = 1 /\
          st1 = (w1, (snd st0 ++ [EGet (base ++ "/tests") (headers self)])%list))).
Proof.
  split; [|intros base st0; apply probe_tests_spec].
  unfold analyze_repo_health.
  destruct (health_loop_spec self repos (mkHealthAcc None 0 0 0 0) st)
    as (a & st' & Hloop & B).
  unfold mbind. rewrite Hloop. unfold mret.
  eexists _, _. split; [reflexivity|].
  cbn [RepoHealth.total_repos_checked RepoHealth.has_readme RepoHealth.has_ci
       RepoHealth.has_tests RepoHealth.has_license
       acc_readme acc_ci acc_tests acc_license] in *.
  lia.
Qed.

(** *** A failed profile fetch *)

(** C9.  When the profile request is answered with a status other than
    200, [fetch_user_info] reports the status and returns [None];
    [generate_analytics] returns [None] after that single request, without
    fetching repositories or events; and [main] ends with the failure
    banner, having made no other request and written nothing. *)
Theorem profile_fetch_failure (fuel : nat) (username_line token_line : string)
    (w w' : World) (tr : list Effect) (resp : Response) :
  let self := init (strip username_line) (or_none (strip token_line)) in
  let url := base_url self ++ "/users/" ++ username self in
  let report :=
    EPrint ("Error fetching user info: " ++ str_of_Z (status_code resp)) in
  transport url (headers self) w = (Some resp, w') ->
  status_code resp <> 200 ->
  fetch_user_info World transport self (w, tr)
  = (Ret None, (w', tr ++ [EGet url (headers self); report])%list) /\
  generate_analytics World transport utcnow localnow fuel self (w, tr)
  = (Ret None,
     (w', tr ++ [EPrint ("Fetching data for " ++ username self ++ "...");
                 EGet url (headers self); report])%list) /\
  exists trace,
    main World transport utcnow localnow fuel username_line token_line (w, tr)
    = (Ret tt, (w', trace)) /\
    filter is_get trace = (filter is_get tr ++ [EGet url (headers self)])%list /\
    filter is_write trace = filter is_write tr /\
    last trace (EPrint "")
    = EPrint (nl ++ "✗ Failed to fetch data. Please check your username and try again.").
Proof.
  cbv zeta. intros Hget Hstatus.
  apply Z.eqb_neq in Hstatus.
  assert (forall tr0,
    fetch_user_info World transport
      (init (strip username_line) (or_none (strip token_line))) (w, tr0)
    = (Ret None,
       (w', tr0 ++ [EGet (base_url (init (strip username_line) (or_none (strip token_line)))
                          ++ "/users/"
                          ++ username (init (strip username_line) (or_none (strip token_line))))
                      (headers (init (strip username_line) (or_none (strip token_line))));
                    EPrint ("Error fetching user info: "
                            ++ str_of_Z (status_code resp))])%list)) as Hfetch.
  { intros tr0. unfold fetch_user_info, mbind, requests_get, print, emit, mret.
    cbn [fst snd]. rewrite Hget, Hstatus. cbn [fst snd].
    now rewrite <- app_assoc. }
  assert (forall tr0,
    generate_analytics World transport utcnow localnow fuel
      (init (strip username_line) (or_none (strip token_line))) (w, tr0)
    = (Ret None,
       (w', tr0 ++ [EPrint ("Fetching data for "
                            ++ username (init (strip username_line) (or_none (strip token_line)))
                            ++ "...");
                    EGet (base_url (init (strip username_line) (or_none (strip token_line)))
                          ++ "/users/"
                          ++ username (init (strip username_line) (or_none (strip token_line))))
                      (headers (init (strip username_line) (or_none (strip token_line))));
                    EPrint ("Error fetching user info: "
                            ++ str_of_Z (status_code resp))])%list)) as Hgen.
  { intros tr0. unfold generate_analytics. unfold mbind at 1.
    unfold print at 1, emit. cbn [fst snd]. unfold mbind at 1.
    rewrite Hfetch. unfold mret. now rewrite <- app_assoc. }
  split; [apply Hfetch|]. split; [apply Hgen|].
  unfold main. unfold mbind, print, emit. cbn [fst snd].
  rewrite Hgen. cbn [fst snd].
  eexists. split; [reflexivity|].
  rewrite <- !app_assoc. cbn [app].
  rewrite !filter_app. cbn [filter is_get is_write app].
  rewrite !app_nil_r. split; [reflexivity|]. split; [reflexivity|].
  rewrite last_app_cons. reflexivity.
Qed.

(** *** The run never ends with a document *)

Lemma lift_ret_inv {A : Type} (o : outcome A) (st st' : State) (a : A) :
  lift World o st = (Ret a, st') -> o = Ret a /\ st' = st.
Proof. unfold lift. now intros [= -> ->]. Qed.

Ltac bind_inv H :=
  let a := fresh "a" in
  let st := fresh "st" in
  let Hm := fresh "Hm" in
  apply mbind_ret_inv in H as (a & st & Hm & H).

(** Whatever the transport answers and however many pages the repository
    loop is allowed, [generate_analytics] does not return a document: it
    returns [None], raises, or is still paging. *)
Lemma generate_analytics_no_document (fuel : nat) (self : GitHubAnalytics)
    (st st' : State) (doc : Analytics.t) :
  generate_analytics World transport utcnow localnow fuel self st
  <> (Ret (Some doc), st').
Proof.
  intros H. unfold generate_analytics in H.
  bind_inv H. bind_inv H.
  destruct a0 as [user_info|]; [|discriminate H].
  destruct (negb (body_truthy user_info)); [discriminate H|].
  do 6 bind_inv H. bind_inv H. bind_inv H.
  apply lift_ret_inv in Hm8 as [Hmonthly _].
  apply analyze_monthly_commits_ret in Hmonthly as [Hle _]. lia.
Qed.

(** Once the profile, the repositories and the events have been fetched
    and the commit times reduced, the run stops at the monthly trend with
    the [NameError]. *)
Lemma generate_analytics_name_error (fuel : nat) (self : GitHubAnalytics)
    (st st1 st2 st3 : State) (user_info : Body) (repos : list Repo.t)
    (events : list Event.t) (times : dict Z Z * dict string Z) :
  fetch_user_info World transport self
    (fst st, (snd st ++ [EPrint ("Fetching data for " ++ username self ++ "...")])%list)
  = (Ret (Some user_info), st1) ->
  body_truthy user_info = true ->
  fetch_repos World transport fuel self
    (fst st1, (snd st1 ++ [EPrint "Fetching repositories..."])%list)
  = (Ret repos, st2) ->
  fetch_events World transport self 3
    (fst st2, (snd st2 ++ [EPrint "Fetching recent events..."])%list)
  = (Ret events, st3) ->
  analyze_commit_times events = Ret times ->
  generate_analytics World transport utcnow localnow fuel self st
  = (Raise (NameError "timedelta"),
     (fst st3, (snd st3 ++ [EPrint "Analyzing data..."])%list)).
Proof.
  intros Huser Htruthy Hrepos Hevents Htimes.
  unfold generate_analytics.
  unfold mbind at 1. unfold print at 1, emit.
  unfold mbind at 1. rewrite Huser, Htruthy. cbn [negb].
  unfold mbind at 1. unfold print at 1, emit.
  unfold mbind at 1. rewrite Hrepos.
  unfold mbind at 1. unfold print at 1, emit.
  unfold mbind at 1. rewrite Hevents.
  unfold mbind at 1. unfold print at 1, emit.
  unfold mbind at 1. unfold lift at 1. rewrite Htimes.
  unfold mbind at 1. unfold read at 1.
  unfold mbind at 1. unfold lift at 1.
  destruct (monthly_commits_raises (utcnow (fst st3)) events 12) as (_ & _ & Hraise);
    [lia|].
  cbn [fst snd]. now rewrite (Hraise times Htimes).
Qed.
End RunFacts.

(** ** The missing import *)

(** C2, as amended.  With a positive month count [analyze_monthly_commits]
    always raises and never returns a mapping.  The exception is the
    [NameError] on [timedelta] whenever the grouping loop gets through the
    events, which is the case when every push event has a timestamp that
    parses and in particular whenever [analyze_commit_times] has returned
    on the same events; otherwise it is the exception raised by reading the
    timestamp of a push event.  Consequently [generate_analytics], which
    asks for 12 months, never returns a document. *)
Theorem analyze_monthly_commits_raises (now : datetime) (events : list Event.t)
    (months : Z) :
  0 < months ->
  (exists err,
      analyze_monthly_commits now events months = Raise err /\
      (err = NameError "timedelta" \/
       exists e, In e events /\ is_push e = true /\
                 parse_created_at e = Raise err)) /\
  ((forall e, In e events -> is_push e = true ->
              exists t, parse_created_at e = Ret t) ->
   analyze_monthly_commits now events months = Raise (NameError "timedelta")) /\
  (forall r, analyze_commit_times events = Ret r ->
             analyze_monthly_commits now events months
             = Raise (NameError "timedelta")) /\
  (forall (World : Type)
          (transport : string -> Headers -> World -> option Response * World)
          (utcnow localnow : World -> datetime) (fuel : nat)
          (self : GitHubAnalytics) (st st' : State World) (doc : Analytics.t),
      generate_analytics World transport utcnow localnow fuel self st
      <> (Ret (Some doc), st')).
Proof.
  intros Hpos.
  destruct (monthly_commits_raises now events months Hpos) as (H1 & H2 & H3).
  repeat split; try assumption.
  intros. apply generate_analytics_no_document.
Qed.

(** The instance of the theorem at the default month count, on no events. *)
Lemma analyze_monthly_commits_raises_witness :
  analyze_monthly_commits (mkdatetime 2024 6 1 0 0 0) [] 12
  = Raise (NameError "timedelta").
Proof.
  apply (analyze_monthly_commits_raises (mkdatetime 2024 6 1 0 0 0) [] 12).
  - lia.
  - intros e [].
Defined.

(** C2 as stated fails: a push event whose timestamp does not parse makes
    the call raise [ValueError], not [NameError]. *)
Lemma analyze_monthly_commits_value_error :
  let e := Event.mk "PushEvent" (Some "2024/01/15 10:00") None in
  let r := analyze_monthly_commits (mkdatetime 2024 6 1 0 0 0) [e] 12 in
  r = Raise ValueError /\ forall name, r <> Raise (NameError name).
Proof. cbv zeta. split; [reflexivity|]. intros name. discriminate. Qed.

(** ** Instances on a transport that answers every request alike *)

(** The instance of the health theorem when every path exists. *)
Lemma analyze_repo_health_bounds_witness :
  let self := init "octocat" None in
  exists n st1,
    probe_tests unit (constant_transport 200) self "base" (tt, []) = (Ret n, st1) /\
    n = 1.
Proof.
  cbv zeta.
  destruct (proj2 (analyze_repo_health_bounds unit (constant_transport 200)
                     (init "octocat" None) [] (tt, [])) "base" (tt, []))
    as (n & st1 & Hrun & _ & Hn).
  exists n, st1. split; [exact Hrun|].
  apply (Hn (mkResponse 200 JNull) tt); reflexivity.
Defined.

(** The instance of the failure theorem on a transport answering 404. *)
Lemma profile_fetch_failure_witness :
  let clock := fun _ : unit => mkdatetime 2024 6 1 0 0 0 in
  exists trace,
    main unit (constant_transport 404) clock clock 10 "octocat" "" (tt, [])
    = (Ret tt, (tt, trace)) /\
    filter is_write trace = [].
Proof.
  cbv zeta.
  destruct (profile_fetch_failure unit (constant_transport 404)
              (fun _ => mkdatetime 2024 6 1 0 0 0)
              (fun _ => mkdatetime 2024 6 1 0 0 0)
              10 "octocat" "" tt tt [] (mkResponse 404 JNull))
    as (_ & _ & trace & Hmain & _ & Hwrite & _).
  - reflexivity.
  - discriminate.
  - exists trace. split; [exact Hmain|exact Hwrite].
Defined.

(** * Further properties of the module *)

(** ** The activity histogram *)

Lemma activity_fold_sum (events : list Event.t) (d : dict string Z) :
  Zsum (values (fold_left activity_step events d)) =
  Zsum (values d) + Z.of_nat (List.length events).
Proof.
  revert d. induction events as [|e events IH]; intros d; cbn [fold_left List.length].
  - lia.
  - rewrite IH. unfold activity_step. rewrite values_dict_add. lia.
Qed.

Lemma activity_fold_keys (events : list Event.t) (d : dict string Z) (k : string) :
  In k (keys (fold_left activity_step events d)) <->
  In k (keys d) \/ exists e, In e events /\ Event.type e = k.
Proof.
  revert d. induction events as [|e events IH]; intros d; cbn [fold_left].
  - split; [now left|]. now intros [Hin|(e & [] & _)].
  - rewrite IH. unfold activity_step. rewrite keys_dict_add. split.
    + intros [[->|Hin]|(e' & Hin & He')]; eauto 6 using in_eq, in_cons.
    + intros [Hin|(e' & [<-|Hin] & He')]; eauto 6.
Qed.

Lemma activity_fold_NoDup (events : list Event.t) (d : dict string Z) :
  NoDup (keys d) -> NoDup (keys (fold_left activity_step events d)).
Proof.
  revert d. induction events as [|e events IH]; intros d Hnd; cbn [fold_left].
  - exact Hnd.
  - apply IH. unfold activity_step. now apply NoDup_dict_add.
Qed.

(** X1.  The activity histogram has one key for each event type that
    occurs, valued by the number of events of that type; its values add up
    to the number of events, whatever the other fields of the events
    hold. *)
Theorem analyze_activity_types_histogram (events : list Event.t) :
  let d := analyze_activity_types events in
  Zsum (values d) = Z.of_nat (List.length events) /\
  (forall k, get0 k d = count (fun e => String.eqb k (Event.type e)) events) /\
  (forall k, In k (keys d) <-> exists e, In e events /\ Event.type e = k) /\
  NoDup (keys d).
Proof.
  cbv zeta. unfold analyze_activity_types. split; [|split; [|split]].
  - now rewrite activity_fold_sum.
  - intros k. now rewrite activity_fold.
  - intros k. rewrite activity_fold_keys. split; [|eauto].
    now intros [[]|He].
  - apply activity_fold_NoDup. constructor.
Qed.

(** ** The commit-time histograms *)

Lemma parse_created_at_errors (e : Event.t) (err : exn) :
  parse_created_at e = Raise err ->
  err = KeyError "created_at" \/ err = ValueError.
Proof.
  unfold parse_created_at, getitem, strptime.
  destruct (Event.created_at e) as [s|]; simpl; [|intros [= <-]; now left].
  destruct (match_format s) as [t|]; [destruct (valid_datetime t)|];
    intros [= <-]; now right.
Qed.

Lemma commit_times_total (events : list Event.t) (st : dict Z Z * dict string Z) :
  (forall e, In e events -> is_push e = true ->
             exists t, parse_created_at e = Ret t) ->
  exists r, for_each events st commit_times_step = Ret r.
Proof.
  revert st. induction events as [|e events IH]; intros st Hall; cbn [for_each].
  - now exists st.
  - assert (exists st1, commit_times_step e st = Ret st1) as [st1 ->].
    { unfold commit_times_step. destruct st as [h d].
      destruct (is_push e) eqn:Hp; [|eauto].
      destruct (Hall e (in_eq _ _) Hp) as [t ->]. simpl. eauto. }
    cbn [obind]. apply IH. intros e' Hin. apply Hall. now right.
Qed.

Lemma commit_times_raise_inv (events : list Event.t)
    (st : dict Z Z * dict string Z) (err : exn) :
  for_each events st commit_times_step = Raise err ->
  exists e, In e events /\ is_push e = true /\ parse_created_at e = Raise err.
Proof.
  revert st. induction events as [|e events IH]; intros st; cbn [for_each];
    [discriminate|].
  destruct (commit_times_step e st) as [st1|err1|] eqn:Hstep; cbn [obind].
  - intros Hrest. destruct (IH st1 Hrest) as (e' & Hin & He'). exists e'.
    split; [now right|exact He'].
  - intros [= ->]. exists e. split; [now left|].
    unfold commit_times_step in Hstep. destruct st as [h d].
    destruct (is_push e); [|discriminate]. split; [reflexivity|].
    destruct (parse_created_at e); simpl in Hstep; congruence.
  - now apply commit_times_step_fuel in Hstep.
Qed.

(** X2.  [analyze_commit_times] returns exactly when every push event has
    a [created_at] that is present and parses.  Otherwise it raises, and
    the exception is the one met at a push event: [KeyError] for a missing
    field, [ValueError] for a value that does not parse.  Events of other
    types never matter. *)
Theorem analyze_commit_times_returns_iff (events : list Event.t) :
  ((exists r, analyze_commit_times events = Ret r) <->
   (forall e, In e events -> is_push e = true ->
              exists t, parse_created_at e = Ret t)) /\
  (forall err, analyze_commit_times events = Raise err ->
     (err = KeyError "created_at" \/ err = ValueError) /\
     exists e, In e events /\ is_push e = true /\
               parse_created_at e = Raise err) /\
  analyze_commit_times events <> OutOfFuel.
Proof.
  unfold analyze_commit_times. split; [|split].
  - split.
    + intros [r Hr]. exact (commit_times_parses events _ r Hr).
    + apply commit_times_total.
  - intros err Herr. apply commit_times_raise_inv in Herr as (e & Hin & Hp & He).
    split; [exact (parse_created_at_errors e err He)|]. now exists e.
  - apply for_each_fuel. exact commit_times_step_fuel.
Qed.

Lemma commit_times_step_ret (e : Event.t) (h h' : dict Z Z) (d d' : dict string Z) :
  commit_times_step e (h, d) = Ret (h', d') ->
  match hour_of e, day_of e with
  | Some hr, Some dy =>
      is_push e = true /\ h' = dict_add hr 1 h /\ d' = dict_add dy 1 d
  | None, None => is_push e = false /\ h' = h /\ d' = d
  | _, _ => False
  end.
Proof.
  unfold commit_times_step, hour_of, day_of. destruct (is_push e).
  - destruct (parse_created_at e) as [t|err|]; simpl; try discriminate.
    intros [= <- <-]. auto.
  - intros [= <- <-]. auto.
Qed.

Lemma weekday_name_listed (t : datetime) : In (strftime_A t) weekday_names.
Proof.
  unfold strftime_A, weekday.
  pose proof (Z.mod_pos_bound (toordinal t + 6) 7 ltac:(lia)) as Hb.
  remember ((toordinal t + 6) mod 7) as w eqn:E. clear E.
  assert (w = 0 \/ w = 1 \/ w = 2 \/ w = 3 \/ w = 4 \/ w = 5 \/ w = 6)
    as Hcases by lia.
  unfold weekday_names.
  repeat (destruct Hcases as [->|Hcases]; [simpl; tauto|]).
  subst. simpl. tauto.
Qed.

Lemma commit_times_fold (events : list Event.t) (h h' : dict Z Z)
    (d d' : dict string Z) :
  for_each events (h, d) commit_times_step = Ret (h', d') ->
  Zsum (values h') = Zsum (values h) + count is_push events /\
  Zsum (values d') = Zsum (values d) + count is_push events /\
  (forall k, get0 k h' = get0 k h + count (at_hour k) events) /\
  (forall k, get0 k d' = get0 k d + count (on_day k) events) /\
  (forall k, In k (keys h') -> In k (keys h) \/ 0 <= k <= 23) /\
  (forall k, In k (keys d') -> In k (keys d) \/ In k weekday_names) /\
  (NoDup (keys h) -> NoDup (keys h')) /\
  (NoDup (keys d) -> NoDup (keys d')).
Proof.
  revert h d. induction events as [|e events IH]; intros h d; cbn [for_each].
  - intros [= <- <-]. rewrite !count_nil.
    repeat split; try lia; try tauto; intros k; rewrite count_nil; lia.
  - destruct (commit_times_step e (h, d)) as [[h1 d1]|err|] eqn:Hstep;
      cbn [obind]; try discriminate.
    intros Hrest. destruct (IH h1 d1 Hrest) as (S1 & S2 & G1 & G2 & K1 & K2 & N1 & N2).
    pose proof (commit_times_step_ret e h h1 d d1 Hstep) as Hs.
    rewrite !count_cons.
    assert (forall k, count (at_hour k) (e :: events)
                      = (if at_hour k e then 1 else 0) + count (at_hour k) events)
      as Ch by (intros k; apply count_cons).
    assert (forall k, count (on_day k) (e :: events)
                      = (if on_day k e then 1 else 0) + count (on_day k) events)
      as Cd by (intros k; apply count_cons).
    destruct (hour_of e) as [hr|] eqn:Hh, (day_of e) as [dy|] eqn:Hd;
      try contradiction.
    + destruct Hs as (Hp & -> & ->). rewrite Hp.
      assert (forall k, at_hour k e = (k =? hr)) as Ah
        by (intros k; unfold at_hour; now rewrite Hh).
      assert (forall k, on_day k e = String.eqb k dy) as Ad
        by (intros k; unfold on_day; now rewrite Hd).
      assert (exists t, parse_created_at e = Ret t /\ hr = hour t /\ dy = strftime_A t)
        as (t & Ht & -> & ->).
      { unfold hour_of, day_of in Hh, Hd. rewrite Hp in Hh, Hd.
        destruct (parse_created_at e) as [t| |]; try discriminate.
        exists t. split; [reflexivity|]. split; congruence. }
      pose proof (parse_created_at_valid e t Ht) as V.
      unfold valid_datetime in V.
      split; [rewrite S1, values_dict_add; lia|].
      split; [rewrite S2, values_dict_add; lia|].
      split; [intros k; rewrite G1, Ch, Ah, (get0_dict_add k (hour t) 1 h);
              simpl key_eqb; lia|].
      split; [intros k; rewrite G2, Cd, Ad, (get0_dict_add k (strftime_A t) 1 d);
              simpl key_eqb; lia|].
      split; [intros k Hin; apply K1 in Hin as [Hin|Hin]; [|now right];
              apply keys_dict_add in Hin as [->|Hin]; [right; lia|now left]|].
      split; [intros k Hin; apply K2 in Hin as [Hin|Hin]; [|now right];
              apply keys_dict_add in Hin as [->|Hin];
              [right; apply weekday_name_listed|now left]|].
      split; intros Hnd; [apply N1|apply N2]; now apply NoDup_dict_add.
    + destruct Hs as (Hp & -> & ->). rewrite Hp.
      assert (forall k, at_hour k e = false) as Ah
        by (intros k; unfold at_hour; now rewrite Hh).
      assert (forall k, on_day k e = false) as Ad
        by (intros k; unfold on_day; now rewrite Hd).
      split; [rewrite S1; lia|]. split; [rewrite S2; lia|].
      split; [intros k; rewrite G1, Ch, Ah; lia|].
      split; [intros k; rewrite G2, Cd, Ad; lia|].
      auto.
Qed.

(** X3.  When [analyze_commit_times] returns, each of the two histograms
    adds up to the number of push events; the hour histogram has its keys
    between 0 and 23 and the day histogram among the seven weekday names,
    no key twice; and each key is valued by the number of push events at
    that hour, or on that weekday. *)
Theorem analyze_commit_times_histograms (events : list Event.t)
    (commit_hours : dict Z Z) (commit_days : dict string Z) :
  analyze_commit_times events = Ret (commit_hours, commit_days) ->
  Zsum (values commit_hours) = count is_push events /\
  Zsum (values commit_days) = count is_push events /\
  (forall k, get0 k commit_hours = count (at_hour k) events) /\
  (forall k, get0 k commit_days = count (on_day k) events) /\
  (forall k, In k (keys commit_hours) -> 0 <= k <= 23) /\
  (forall k, In k (keys commit_days) -> In k weekday_names) /\
  NoDup (keys commit_hours) /\ NoDup (keys commit_days).
Proof.
  unfold analyze_commit_times. intros Hr.
  destruct (commit_times_fold events [] commit_hours [] commit_days Hr)
    as (S1 & S2 & G1 & G2 & K1 & K2 & N1 & N2).
  split; [exact S1|]. split; [exact S2|].
  split; [intros k; rewrite G1; reflexivity|].
  split; [intros k; rewrite G2; reflexivity|].
  split; [intros k Hin; destruct (K1 k Hin) as [[]|Hk]; exact Hk|].
  split; [intros k Hin; destruct (K2 k Hin) as [[]|Hk]; exact Hk|].
  split; [apply N1|apply N2]; constructor.
Qed.

(** The instance of the theorem at one push event. *)
Lemma analyze_commit_times_histograms_witness :
  Zsum (values [(10, 1)]) = count is_push [octocat_push].
Proof.
  apply (analyze_commit_times_histograms [octocat_push] [(10, 1)] [("Monday", 1)]).
  reflexivity.
Defined.

(** ** The top repositories are the most starred ones *)

Lemma StronglySorted_app_inv {A : Type} (R : A -> A -> Prop) (l1 l2 : list A) :
  StronglySorted R (l1 ++ l2) ->
  forall a b, In a l1 -> In b l2 -> R a b.
Proof.
  induction l1 as [|x l1 IH]; simpl; intros Hs a b Ha Hb; [destruct Ha|].
  inversion Hs as [|? ? Hs' Hall]; subst.
  destruct Ha as [<-|Ha]; [|now apply IH].
  rewrite Forall_forall in Hall. apply Hall, in_or_app. now right.
Qed.

(** X4.  [get_repo_stats] reports the number of repositories and the sums
    of their stars and forks; the repositories it lists are taken from the
    collection, each at most as often as it occurs there, and every
    repository left out has at most as many stars as every one listed. *)
Theorem get_repo_stats_most_starred (repos : list Repo.t) :
  let r := get_repo_stats repos in
  total_repos r = Z.of_nat (List.length repos) /\
  total_stars r = Zsum (map Repo.stargazers_count repos) /\
  total_forks r = Zsum (map Repo.forks_count repos) /\
  exists top rest,
    top_repos r = map repo_summary top /\
    Permutation repos (top ++ rest) /\
    forall t o, In t top -> In o rest ->
                Repo.stargazers_count o <= Repo.stargazers_count t.
Proof.
  cbv zeta. unfold get_repo_stats.
  cbn [total_repos total_stars total_forks top_repos].
  split; [reflexivity|]. split; [reflexivity|]. split; [reflexivity|].
  exists (firstn 5 (sorted stars_ge repos)), (skipn 5 (sorted stars_ge repos)).
  split; [reflexivity|]. rewrite firstn_skipn. split; [apply sorted_perm|].
  intros t o Ht Ho.
  pose proof (sorted_StronglySorted stars_ge stars_ge_total stars_ge_trans repos) as Hs.
  rewrite <- (firstn_skipn 5 (sorted stars_ge repos)) in Hs.
  pose proof (StronglySorted_app_inv _ _ _ Hs t o Ht Ho) as Hle.
  unfold stars_ge in Hle. lia.
Qed.

(** ** The average time to merge *)

Lemma durations_of_length (events : list Event.t) :
  Z.of_nat (List.length (durations_of events)) <= count is_merged_pr events.
Proof.
  induction events as [|e events IH]; [rewrite count_nil; simpl; lia|].
  rewrite durations_of_cons, length_app, count_cons, Nat2Z.inj_add.
  unfold durations_of at 1, valid_duration. simpl flat_map.
  destruct (is_merged_pr e); [|cbn [app List.length]; lia].
  destruct (merge_duration (pr_of e)); cbn [app List.length]; lia.
Qed.

Lemma durations_of_In (events : list Event.t) (h : Q) :
  In h (durations_of events) ->
  exists e, In e events /\ is_merged_pr e = true /\ valid_duration e = Some h.
Proof.
  unfold durations_of. intros Hin. apply in_flat_map in Hin as (e & He & Hh).
  exists e. split; [exact He|].
  destruct (valid_duration e) as [h'|] eqn:Hv; [|destruct Hh].
  destruct Hh as [->|[]]. split; [|reflexivity].
  unfold valid_duration in Hv. now destruct (is_merged_pr e).
Qed.

Lemma fold_Qplus_pos (l : list Q) (acc : Q) :
  (0 <= acc)%Q -> Forall (fun h => (0 < h)%Q) l -> l <> [] ->
  (0 < fold_left Qplus l acc)%Q.
Proof.
  revert acc. induction l as [|h l IH]; intros acc Hacc Hall Hne; [contradiction|].
  inversion Hall as [|? ? Hh Hall']; subst. cbn [fold_left].
  assert (0 < acc + h)%Q as Hpos.
  { apply Qlt_le_trans with (y := (0 + h)%Q).
    - now rewrite Qplus_0_l.
    - apply Qplus_le_compat; [exact Hacc|apply Qle_refl]. }
  destruct l as [|h' l]; [exact Hpos|].
  apply IH; [now apply Qlt_le_weak|exact Hall'|discriminate].
Qed.

Lemma fold_Qplus_zero (l : list Q) (acc : Q) :
  (acc == 0)%Q -> Forall (fun h => (h == 0)%Q) l ->
  (fold_left Qplus l acc == 0)%Q.
Proof.
  revert acc. induction l as [|h l IH]; intros acc Hacc Hall; [exact Hacc|].
  inversion Hall as [|? ? Hh Hall']; subst. cbn [fold_left].
  apply IH; [|exact Hall']. rewrite Hacc, Hh. reflexivity.
Qed.

(** X5.  A duration is recorded only for a merged pull request whose two
    timestamps are present and parse, so for at most [merged_prs] events.
    [avg_time_to_merge_hours] is not null only if there is such a pull
    request; it is not null whenever there is one and every recorded
    duration is positive; and it is null whenever all recorded durations
    are zero, in particular when there is none. *)
Theorem avg_time_to_merge_hours_null (events : list Event.t) :
  let ds := durations_of events in
  let avg := avg_time_to_merge_hours (analyze_pr_stats events) in
  Z.of_nat (List.length ds) <= merged_prs (analyze_pr_stats events) /\
  (avg <> None ->
   exists e h, In e events /\ is_merged_pr e = true /\
               valid_duration e = Some h) /\
  (ds <> [] -> Forall (fun h => (0 < h)%Q) ds -> avg <> None) /\
  (Forall (fun h => (h == 0)%Q) ds -> avg = None).
Proof.
  cbv zeta. split; [|split; [|split]].
  - rewrite analyze_pr_stats_spec. cbv zeta. cbn [merged_prs].
    apply durations_of_length.
  - intros Havg.
    destruct (durations_of events) as [|h ds] eqn:E.
    + exfalso. apply Havg. apply avg_time_null_iff. left. exact E.
    + destruct (durations_of_In events h) as (e & He & Hm & Hv);
        [rewrite E; now left|].
      now exists e, h.
  - intros Hne Hpos Havg. apply avg_time_null_iff in Havg as [Hnil|Hzero];
      [contradiction|].
    assert (0 < Qsum (durations_of events)
                / inject_Z (Z.of_nat (List.length (durations_of events))))%Q as Hlt.
    { apply Qlt_shift_div_l.
      - destruct (durations_of events); [contradiction|].
        unfold Qlt, inject_Z. simpl. lia.
      - rewrite Qmult_0_l. unfold Qsum.
        apply fold_Qplus_pos; [apply Qle_refl|exact Hpos|exact Hne]. }
    rewrite Hzero in Hlt. now apply Qlt_irrefl in Hlt.
  - intros Hzero. apply avg_time_null_iff. right.
    unfold Qdiv. rewrite (fold_Qplus_zero (durations_of events) (inject_Z 0));
      [apply Qmult_0_l|reflexivity|exact Hzero].
Qed.

(** The instance of the theorem at a pull request merged after 36 hours. *)
Lemma avg_time_to_merge_hours_null_witness :
  avg_time_to_merge_hours
    (analyze_pr_stats
       [Event.mk "PullRequestEvent" (Some "2024-01-02T12:00:00Z")
          (Some (Payload.mk None (Some "closed")
                   (Some (PullRequest.mk (Some true)
                            (Some "2024-01-01T00:00:00Z")
                            (Some "2024-01-02T12:00:00Z")))))])
  <> None.
Proof.
  apply (proj1 (proj2 (proj2 (avg_time_to_merge_hours_null _)))).
  - discriminate.
  - constructor; [reflexivity|constructor].
Defined.

(** ** What a run adds to the trace *)

Lemma string_app_assoc (a b c : string) : ((a ++ b) ++ c = a ++ (b ++ c))%string.
Proof. induction a as [|x a IH]; simpl; [reflexivity|]. now rewrite IH. Qed.

Section TraceFacts.
Variable World : Type.
Variable transport : string -> Headers -> World -> option Response * World.
Variable utcnow : World -> datetime.
Variable localnow : World -> datetime.

Local Abbreviation M := (M World).
Local Abbreviation State := (State World).

Lemma appends_mret {A : Type} (P : Effect -> Prop) (a : A) :
  appends P (mret World a).
Proof. intros st. exists []. simpl. now rewrite app_nil_r. Qed.

Lemma appends_lift {A : Type} (P : Effect -> Prop) (o : outcome A) :
  appends P (lift World o).
Proof. intros st. exists []. simpl. now rewrite app_nil_r. Qed.

Lemma appends_read {A : Type} (P : Effect -> Prop) (clock : World -> A) :
  appends P (read World clock).
Proof. intros st. exists []. simpl. now rewrite app_nil_r. Qed.

Lemma appends_emit (P : Effect -> Prop) (e : Effect) :
  P e -> appends P (emit World e).
Proof. intros He st. exists [e]. simpl. split; [reflexivity|]. now constructor. Qed.

Lemma appends_requests_get (P : Effect -> Prop) (url : string) (h : Headers) :
  P (EGet url h) -> appends P (requests_get World transport url h).
Proof.
  intros He st. exists [EGet url h]. unfold requests_get.
  destruct (transport url h (fst st)) as [r w']. simpl.
  split; [reflexivity|]. now constructor.
Qed.

(** The continuation need only behave on the results the first part can
    return. *)
Lemma appends_mbind_ret {A B : Type} (P : Effect -> Prop) (m : M A) (k : A -> M B) :
  appends P m ->
  (forall st a st', m st = (Ret a, st') ->
     exists new, snd (snd (k a st')) = (snd st' ++ new)%list /\ Forall P new) ->
  appends P (mbind World m k).
Proof.
  intros Hm Hk st. destruct (Hm st) as (new1 & E1 & F1). unfold mbind.
  destruct (m st) as [[a|err|] st1] eqn:Hrun; simpl in E1.
  - destruct (Hk st a st1 Hrun) as (new2 & E2 & F2).
    exists (new1 ++ new2)%list. rewrite E2, E1, app_assoc.
    split; [reflexivity|]. apply Forall_app. now split.
  - now exists new1.
  - now exists new1.
Qed.

Lemma appends_mbind {A B : Type} (P : Effect -> Prop) (m : M A) (k : A -> M B) :
  appends P m -> (forall a, appends P (k a)) -> appends P (mbind World m k).
Proof.
  intros Hm Hk. apply appends_mbind_ret; [exact Hm|].
  intros st a st' _. apply Hk.
Qed.

Lemma appends_try_except {A : Type} (P : Effect -> Prop) (m : M A) (default : A) :
  appends P m -> appends P (try_except World m default).
Proof.
  intros Hm st. destruct (Hm st) as (new & E & F). unfold try_except.
  destruct (m st) as [[a|err|] st1]; now exists new.
Qed.

Lemma appends_if {A : Type} (P : Effect -> Prop) (b : bool) (m1 m2 : M A) :
  appends P m1 -> appends P m2 -> appends P (if b then m1 else m2).
Proof. now destruct b. Qed.

Ltac appends_step :=
  first [ apply appends_mbind; [|intros ?]
        | apply appends_if
        | apply appends_try_except
        | apply appends_mret | apply appends_lift | apply appends_read ].

(** *** Every request carries the headers of the instance *)

Lemma request_under_base (self : GitHubAnalytics) (path : string) :
  print_or_request self (EGet (base_url self ++ "/" ++ path) (headers self)).
Proof. simpl. split; [reflexivity|]. now exists path. Qed.

Lemma print_ok (self : GitHubAnalytics) (line : string) :
  appends (print_or_request self) (print World line).
Proof. apply appends_emit. exact I. Qed.

Lemma fetch_user_info_appends (self : GitHubAnalytics) :
  appends (print_or_request self) (fetch_user_info World transport self).
Proof.
  unfold fetch_user_info. repeat appends_step; try apply print_ok.
  apply appends_requests_get.
  exact (request_under_base self ("users/" ++ username self)).
Qed.

Lemma fetch_repos_loop_appends (fuel : nat) (self : GitHubAnalytics)
    (repos : list Repo.t) (page : Z) :
  appends (print_or_request self)
    (fetch_repos_loop World transport fuel self repos page).
Proof.
  revert repos page. induction fuel as [|fuel IH]; intros repos page;
    cbn [fetch_repos_loop]; [apply appends_lift|].
  repeat appends_step; try apply IH.
  apply appends_requests_get.
  exact (request_under_base self
           ("users/" ++ username self ++ "/repos?page=" ++ str_of_Z page
            ++ "&per_page=100")).
Qed.

Lemma fetch_events_loop_appends (self : GitHubAnalytics) (pages : list Z)
    (events : list Event.t) :
  appends (print_or_request self)
    (fetch_events_loop World transport self pages events).
Proof.
  revert events. induction pages as [|page pages IH]; intros events;
    cbn [fetch_events_loop]; [apply appends_mret|].
  repeat appends_step; try apply IH.
  apply appends_requests_get.
  exact (request_under_base self
           ("users/" ++ username self ++ "/events?page=" ++ str_of_Z page
            ++ "&per_page=100")).
Qed.

Lemma contents_request (self : GitHubAnalytics) (repo : Repo.t) (file : string) :
  print_or_request self
    (EGet ((base_url self ++ "/repos/" ++ fmt_opt (owner_login repo)
            ++ "/" ++ Repo.name repo ++ "/contents") ++ file)
          (headers self)).
Proof.
  unfold print_or_request. split; [reflexivity|].
  exists ("repos/" ++ fmt_opt (owner_login repo) ++ "/" ++ Repo.name repo
          ++ "/contents" ++ file)%string.
  rewrite !string_app_assoc. reflexivity.
Qed.

Lemma health_loop_appends (self : GitHubAnalytics) (repos : list Repo.t)
    (a : HealthAcc) :
  appends (print_or_request self) (health_loop World transport self repos a).
Proof.
  revert a. induction repos as [|repo repos IH]; intros a; cbn [health_loop];
    [apply appends_mret|].
  apply appends_mbind; [|intros a'; apply IH].
  unfold health_step, probe, probe_tests.
  repeat appends_step; apply appends_requests_get; apply contents_request.
Qed.

Lemma generate_analytics_appends (fuel : nat) (self : GitHubAnalytics) :
  appends (print_or_request self)
    (generate_analytics World transport utcnow localnow fuel self).
Proof.
  unfold generate_analytics.
  apply appends_mbind; [apply print_ok|intros _].
  apply appends_mbind; [apply fetch_user_info_appends|intros [user_info|]];
    [|apply appends_mret].
  apply appends_if; [apply appends_mret|].
  apply appends_mbind; [apply print_ok|intros _].
  apply appends_mbind; [apply fetch_repos_loop_appends|intros repos].
  apply appends_mbind; [apply print_ok|intros _].
  apply appends_mbind; [apply fetch_events_loop_appends|intros events].
  apply appends_mbind; [apply print_ok|intros _].
  apply appends_mbind; [apply appends_lift|intros times].
  apply appends_mbind; [apply appends_read|intros now].
  apply appends_mbind; [apply appends_lift|intros monthly].
  apply appends_mbind.
  - unfold analyze_repo_health.
    apply appends_mbind; [apply health_loop_appends|intros a; apply appends_mret].
  - intros health. repeat appends_step.
Qed.

Lemma main_appends (fuel : nat) (username_line token_line : string) :
  appends
    (print_or_request (init (strip username_line) (or_none (strip token_line))))
    (main World transport utcnow localnow fuel username_line token_line).
Proof.
  unfold main.
  do 8 (apply appends_mbind; [apply print_ok|intros _]).
  apply appends_mbind_ret; [apply generate_analytics_appends|].
  intros st [doc|] st' Hrun.
  - now apply generate_analytics_no_document in Hrun.
  - apply print_ok.
Qed.

(** X6.  The instance [main] builds sends the header
    [Authorization: token ...] exactly when the token line is not blank,
    and no other header.  Whatever the transport answers, a run only prints
    and sends requests, and every request goes to a path under the base URL
    and carries those headers. *)
Theorem main_requests_carry_headers (fuel : nat)
    (username_line token_line : string) (st : State) :
  let self := init (strip username_line) (or_none (strip token_line)) in
  headers self =
    (if String.eqb (strip token_line) "" then []
     else [("Authorization", "token " ++ strip token_line)]) /\
  exists new,
    snd (snd (main World transport utcnow localnow fuel
                username_line token_line st))
    = (snd st ++ new)%list /\
    Forall (print_or_request self) new.
Proof.
  cbv zeta. split; [|apply main_appends].
  unfold init, or_none, truthy_str. cbn [headers].
  destruct (String.eqb (strip token_line) "") eqn:E; [reflexivity|].
  now rewrite E.
Qed.

(** X7.  [main] never writes: whatever the two lines typed, the answers
    of the transport and the number of pages allowed, the run creates no
    directory and writes no file. *)
Theorem main_never_writes (fuel : nat) (username_line token_line : string)
    (st : State) :
  filter is_write
    (snd (snd (main World transport utcnow localnow fuel
                 username_line token_line st)))
  = filter is_write (snd st).
Proof.
  destruct (main_appends fuel username_line token_line st) as (new & -> & Hall).
  rewrite filter_app.
  assert (filter is_write new = []) as ->; [|apply app_nil_r].
  induction Hall as [|e new He _ IH]; [reflexivity|].
  simpl. rewrite IH. now destruct e.
Qed.

(** *** Pagination *)








(** *** The requests of the health check *)

Lemma probe_trace (self : GitHubAnalytics) (url : string) (st : State) :
  exists n st',
    probe World transport self url st = (Ret n, st') /\
    snd st' = (snd st ++ [EGet url (headers self)])%list.
Proof.
  unfold probe, try_except, mbind, requests_get, mret.
  destruct (transport url (headers self) (fst st)) as [[r|] w']; eauto.
Qed.

Lemma probe_tests_trace (self : GitHubAnalytics) (base : string) (st : State) :
  exists n st' new,
    probe_tests World transport self base st = (Ret n, st') /\
    snd st' = (snd st ++ new)%list /\
    Forall (fun e => is_get e = true) new /\
    (1 <= List.length new <= 2)%nat.
Proof.
  unfold probe_tests, try_except, mbind, requests_get, mret.
  destruct (transport (base ++ "/tests") (headers self) (fst st)) as [[r|] w1].
  - destruct (status_code r =? 200).
    + eexists _, _, [_]. repeat split; auto; simpl; lia.
    + cbn [fst snd].
      destruct (transport (base ++ "/test") (headers self) w1) as [[r2|] w2];
        eexists _, _, [_; _]; cbn [snd]; rewrite <- app_assoc;
        repeat split; auto; simpl; lia.
  - eexists _, _, [_]. repeat split; auto; simpl; lia.
Qed.

Lemma health_loop_trace (self : GitHubAnalytics) (repos : list Repo.t)
    (a : HealthAcc) (st : State) :
  exists a' st' new,
    health_loop World transport self repos a st = (Ret a', st') /\
    snd st' = (snd st ++ new)%list /\
    Forall (fun e => is_get e = true) new /\
    (3 * List.length repos <= List.length new <= 4 * List.length repos)%nat /\
    acc_license a' = acc_license a + count has_license_field repos.
Proof.
  revert a st. induction repos as [|repo repos IH]; intros a st.
  - exists a, st, []. rewrite count_nil, app_nil_r. repeat split; auto; simpl; lia.
  - cbn [health_loop]. unfold health_step.
    set (base := (base_url self ++ "/repos/" ++ fmt_opt (owner_login repo)
                  ++ "/" ++ Repo.name repo ++ "/contents")%string).
    destruct (probe_trace self (base ++ "/README.md") st) as (n1 & st1 & H1 & T1).
    destruct (probe_trace self (base ++ "/.github/workflows") st1)
      as (n2 & st2 & H2 & T2).
    destruct (probe_tests_trace self base st2) as (n3 & st3 & new3 & H3 & T3 & F3 & L3).
    unfold mbind at 1. unfold mbind at 1. rewrite H1.
    unfold mbind at 1. rewrite H2. unfold mbind at 1. rewrite H3. unfold mret.
    match goal with
    | |- context [health_loop _ _ _ _ ?acc st3] =>
        destruct (IH acc st3) as (a' & st' & new & Hrun & T & F & L & Hlic)
    end.
    exists a', st', ([EGet (base ++ "/README.md") (headers self)]
                     ++ [EGet (base ++ "/.github/workflows") (headers self)]
                     ++ new3 ++ new)%list.
    split; [exact Hrun|]. split; [|split; [|split]].
    + rewrite T, T3, T2, T1, <- !app_assoc. reflexivity.
    + repeat (apply Forall_app; split); auto.
    + rewrite !length_app. cbn [List.length]. lia.
    + rewrite Hlic, count_cons. cbn [acc_license]. unfold has_license_field.
      destruct (Repo.license repo); lia.
Qed.

(** X10.  [analyze_repo_health] sends three or four requests for each
    repository and does nothing else to the outside; its count of
    licenses is the number of repositories whose own [license] field is
    set, whatever the transport answers. *)
Theorem analyze_repo_health_requests (self : GitHubAnalytics)
    (repos : list Repo.t) (st : State) :
  exists r st' new,
    analyze_repo_health World transport self repos st = (Ret r, st') /\
    snd st' = (snd st ++ new)%list /\
    Forall (fun e => is_get e = true) new /\
    (3 * List.length repos <= List.length new <= 4 * List.length repos)%nat /\
    RepoHealth.has_license r = count has_license_field repos.
Proof.
  unfold analyze_repo_health.
  destruct (health_loop_trace self repos (mkHealthAcc None 0 0 0 0) st)
    as (a & st' & new & Hrun & T & F & L & Hlic).
  unfold mbind. rewrite Hrun. unfold mret.
  eexists _, st', new. split; [reflexivity|].
  cbn [RepoHealth.has_license]. cbn [acc_license] in Hlic. repeat split; auto; lia.
Qed.

(** *** Saving *)






(** *** Where the run stops *)

(** X12.  Once the profile, the repositories and the events have been
    fetched and every push event has a timestamp that parses,
    [generate_analytics] raises the [NameError] on [timedelta] right after
    announcing the analysis: the health check is never reached, so no
    request is sent beyond those of the three fetches. *)
Theorem generate_analytics_stops_at_trend (fuel : nat) (self : GitHubAnalytics)
    (st st1 st2 st3 : State) (user_info : Body) (repos : list Repo.t)
    (events : list Event.t) :
  fetch_user_info World transport self
    (fst st, (snd st ++ [EPrint ("Fetching data for " ++ username self ++ "...")])%list)
  = (Ret (Some user_info), st1) ->
  body_truthy user_info = true ->
  fetch_repos World transport fuel self
    (fst st1, (snd st1 ++ [EPrint "Fetching repositories..."])%list)
  = (Ret repos, st2) ->
  fetch_events World transport self 3
    (fst st2, (snd st2 ++ [EPrint "Fetching recent events..."])%list)
  = (Ret events, st3) ->
  (forall e, In e events -> is_push e = true ->
             exists t, parse_created_at e = Ret t) ->
  generate_analytics World transport utcnow localnow fuel self st
  = (Raise (NameError "timedelta"),
     (fst st3, (snd st3 ++ [EPrint "Analyzing data..."])%list)) /\
  filter is_get (snd st3 ++ [EPrint "Analyzing data..."])%list
  = filter is_get (snd st3).
Proof.
  intros Huser Htruthy Hrepos Hevents Hparse.
  destruct (commit_times_total events ([], []) Hparse) as [times Htimes].
  split.
  - exact (generate_analytics_name_error World transport utcnow localnow fuel self
             st st1 st2 st3 user_info repos events times
             Huser Htruthy Hrepos Hevents Htimes).
  - rewrite filter_app. simpl. apply app_nil_r.
Qed.
End TraceFacts.

(** ** Instances of the further properties *)




(** The instance of the theorem on the scripted transport: a profile, one
    repository and one push event are fetched, and the run stops. *)
Lemma generate_analytics_stops_at_trend_witness :
  let clock := fun _ : unit => mkdatetime 2024 6 1 0 0 0 in
  fst (generate_analytics unit octocat_transport clock clock 5
         (init "octocat" None) (tt, []))
  = Raise (NameError "timedelta").
Proof.
  cbv zeta.
  refine (f_equal fst
            (proj1 (generate_analytics_stops_at_trend unit octocat_transport
                      (fun _ => mkdatetime 2024 6 1 0 0 0)
                      (fun _ => mkdatetime 2024 6 1 0 0 0)
                      5 (init "octocat" None) (tt, [])
                      _ _ _ (JProfile octocat_profile) [octocat_repo] [octocat_push]
                      _ _ _ _ _))).
  - cbv. reflexivity.
  - reflexivity.
  - cbv. reflexivity.
  - cbv. reflexivity.
  - intros e [<-|[]] _. exists (mkdatetime 2024 1 15 10 0 0). reflexivity.
Defined.

(** ** Other answers to the profile request *)

Section ProfileFacts.
Variable World : Type.
Variable transport : string -> Headers -> World -> option Response * World.
Variable utcnow : World -> datetime.
Variable localnow : World -> datetime.

(** X13.  A profile request answered with status 200 but an empty body is
    treated like a failed one, except that nothing is reported:
    [generate_analytics] returns [None] after that single request. *)
Theorem generate_analytics_empty_profile (fuel : nat) (self : GitHubAnalytics)
    (w w' : World) (tr : list Effect) (resp : Response) :
  let url := base_url self ++ "/users/" ++ username self in
  transport url (headers self) w = (Some resp, w') ->
  status_code resp = 200 ->
  body_truthy (json resp) = false ->
  generate_analytics World transport utcnow localnow fuel self (w, tr)
  = (Ret None,
     (w', tr ++ [EPrint ("Fetching data for " ++ username self ++ "...");
                 EGet url (headers self)])%list).
Proof.
  cbv zeta. intros Hget Hstatus Hbody.
  unfold generate_analytics, fetch_user_info.
  unfold mbind, print, emit, requests_get, mret. cbn [fst snd].
  rewrite Hget, Hstatus. cbn [Z.eqb Pos.eqb]. rewrite Hbody. cbn [negb fst snd].
  now rewrite <- app_assoc.
Qed.

(** X14.  A failure of the transport on the profile request is not
    caught: [generate_analytics] and [main] end with the exception, and
    [main] prints neither banner of success nor of failure after it. *)
Theorem profile_request_exception (fuel : nat) (username_line token_line : string)
    (w w' : World) (tr : list Effect) :
  let self := init (strip username_line) (or_none (strip token_line)) in
  let url := base_url self ++ "/users/" ++ username self in
  transport url (headers self) w = (None, w') ->
  generate_analytics World transport utcnow localnow fuel self (w, tr)
  = (Raise RequestException,
     (w', tr ++ [EPrint ("Fetching data for " ++ username self ++ "...");
                 EGet url (headers self)])%list) /\
  exists trace,
    main World transport utcnow localnow fuel username_line token_line (w, tr)
    = (Raise RequestException, (w', trace)) /\
    last trace (EPrint "") = EGet url (headers self).
Proof.
  cbv zeta. intros Hget.
  assert (forall tr0,
    generate_analytics World transport utcnow localnow fuel
      (init (strip username_line) (or_none (strip token_line))) (w, tr0)
    = (Raise RequestException,
       (w', tr0 ++ [EPrint ("Fetching data for "
                            ++ username (init (strip username_line)
                                           (or_none (strip token_line)))
                            ++ "...");
                    EGet (base_url (init (strip username_line)
                                      (or_none (strip token_line)))
                          ++ "/users/"
                          ++ username (init (strip username_line)
                                         (or_none (strip token_line))))
                      (headers (init (strip username_line)
                                  (or_none (strip token_line))))])%list)) as Hgen.
  { intros tr0. unfold generate_analytics, fetch_user_info.
    unfold mbind, print, emit, requests_get. cbn [fst snd].
    rewrite Hget. now rewrite <- app_assoc. }
  split; [apply Hgen|].
  unfold main. unfold mbind, print, emit. cbn [fst snd].
  rewrite Hgen. eexists. split; [reflexivity|].
  rewrite <- !app_assoc. cbn [app].
  rewrite last_app_cons. reflexivity.
Qed.
End ProfileFacts.

(** The instances on a transport answering 200 with an empty body, and on
    one that fails. *)
Lemma generate_analytics_empty_profile_witness :
  let clock := fun _ : unit => mkdatetime 2024 6 1 0 0 0 in
  fst (generate_analytics unit (constant_transport 200) clock clock 5
         (init "octocat" None) (tt, []))
  = Ret None.
Proof.
  cbv zeta.
  refine (f_equal fst
            (generate_analytics_empty_profile unit (constant_transport 200)
               (fun _ => mkdatetime 2024 6 1 0 0 0)
               (fun _ => mkdatetime 2024 6 1 0 0 0)
               5 (init "octocat" None) tt tt [] (mkResponse 200 JNull) _ _ _));
    reflexivity.
Defined.

Lemma profile_request_exception_witness :
  let clock := fun _ : unit => mkdatetime 2024 6 1 0 0 0 in
  fst (generate_analytics unit failing_transport clock clock 5
         (init "octocat" None) (tt, []))
  = Raise RequestException.
Proof.
  cbv zeta.
  refine (f_equal fst
            (proj1 (profile_request_exception unit failing_transport
                      (fun _ => mkdatetime 2024 6 1 0 0 0)
                      (fun _ => mkdatetime 2024 6 1 0 0 0)
                      5 "octocat" "" tt tt [] _))).
  reflexivity.
Defined.

(** ** The collaboration score *)

Lemma analyze_pr_stats_merge_rate_facts (events : list Event.t) :
  (total_prs (analyze_pr_stats events) = 0 ->
   merge_rate (analyze_pr_stats events) = None) /\
  (forall q, merge_rate (analyze_pr_stats events) = Some q ->
             (0 <= q /\ q <= 1)%Q).
Proof.
  rewrite analyze_pr_stats_spec. cbv zeta. cbn [total_prs merge_rate].
  pose proof (count_bounds is_pull_request events) as Ht.
  pose proof (count_bounds is_merged_pr events) as Hm.
  pose proof (count_le_mono is_merged_pr is_pull_request events is_merged_pr_is_pr)
    as Hle.
  destruct (Z.eqb_spec (count is_pull_request events) 0) as [E|Hne].
  - split; [reflexivity|discriminate].
  - split; [contradiction|]. intros q [= <-]. apply Qdiv_unit_interval; lia.
Qed.

Lemma round_half_even_bounds (q : Q) (lo hi : Z) :
  (inject_Z lo <= q)%Q -> (q <= inject_Z hi)%Q ->
  lo <= round_half_even q <= hi.
Proof.
  unfold Qle, inject_Z, round_half_even. destruct q as [n d]. cbn [Qnum Qden].
  intros Hlo Hhi.
  pose proof (Z.div_mod n (Z.pos d) ltac:(lia)) as Hdm.
  pose proof (Z.mod_pos_bound n (Z.pos d) ltac:(lia)) as Hm.
  assert (lo <= n / Z.pos d) as Hf1 by (apply Z.div_le_lower_bound; lia).
  assert (n / Z.pos d <= hi) as Hf2 by (apply Z.div_le_upper_bound; lia).
  assert (0 < n mod Z.pos d -> n / Z.pos d + 1 <= hi) as Hup.
  { intros Hpos.
    destruct (Z.eq_dec (n / Z.pos d) hi) as [E|Hne]; [|lia].
    rewrite E in Hdm. lia. }
  destruct (Z.ltb_spec (2 * (n mod Z.pos d)) (Z.pos d)); [lia|].
  destruct (Z.ltb_spec (Z.pos d) (2 * (n mod Z.pos d))); [lia|].
  destruct (Z.even (n / Z.pos d)); lia.
Qed.

Lemma round1_bounds (q : Q) (lo hi : Z) :
  (inject_Z lo <= q)%Q -> (q <= inject_Z hi)%Q ->
  (inject_Z lo <= round1 q)%Q /\ (round1 q <= inject_Z hi)%Q.
Proof.
  intros Hlo Hhi.
  assert (lo * 10 <= round_half_even (q * inject_Z 10) <= hi * 10) as Hr.
  { apply round_half_even_bounds.
    - rewrite inject_Z_mult. apply Qmult_le_compat_r; [exact Hlo|discriminate].
    - rewrite inject_Z_mult. apply Qmult_le_compat_r; [exact Hhi|discriminate]. }
  unfold round1. revert Hr.
  generalize (round_half_even (q * inject_Z 10)). intros r Hr.
  unfold Qdiv, Qmult, Qinv, Qle, inject_Z. simpl. lia.
Qed.

(** X15.  The collaboration score, the merge rate in percent rounded to
    one decimal, lies between 0 and 100, and is 0 when the events hold no
    pull request. *)
Theorem collaboration_bounds (events : list Event.t) :
  let c := round1 (rate_percent (merge_rate (analyze_pr_stats events))) in
  (0 <= c)%Q /\ (c <= 100)%Q /\
  (total_prs (analyze_pr_stats events) = 0 -> (c == 0)%Q).
Proof.
  cbv zeta.
  destruct (analyze_pr_stats_merge_rate_facts events) as (Hnone & Hrange).
  assert (inject_Z 0 <= rate_percent (merge_rate (analyze_pr_stats events))
          /\ rate_percent (merge_rate (analyze_pr_stats events)) <= inject_Z 100)%Q
    as [H0 H100].
  { unfold rate_percent.
    destruct (merge_rate (analyze_pr_stats events)) as [q|]; [|split; discriminate].
    destruct (truthy_Q q); [|split; discriminate].
    destruct (Hrange q eq_refl) as [Hq0 Hq1]. split.
    - change (inject_Z 0) with (0 * inject_Z 100)%Q.
      apply Qmult_le_compat_r; [exact Hq0|discriminate].
    - change (inject_Z 100) with (1 * inject_Z 100)%Q.
      apply Qmult_le_compat_r; [exact Hq1|discriminate]. }
  destruct (round1_bounds _ 0 100 H0 H100) as [Hlo Hhi].
  split; [exact Hlo|]. split; [exact Hhi|].
  intros Htotal. apply Hnone in Htotal. rewrite Htotal. reflexivity.
Qed.

(** The instance of the theorem on no events. *)
Lemma collaboration_bounds_witness :
  (round1 (rate_percent (merge_rate (analyze_pr_stats []))) == 0)%Q.
Proof.
  apply (proj2 (proj2 (collaboration_bounds []))). reflexivity.
Defined.

(** ** Each reducer sees the events of its own type only *)

Lemma commit_times_filter (events : list Event.t) (st : dict Z Z * dict string Z) :
  for_each (filter is_push events) st commit_times_step
  = for_each events st commit_times_step.
Proof.
  revert st. induction events as [|e events IH]; intros st; [reflexivity|].
  cbn [filter for_each]. destruct (is_push e) eqn:Hp.
  - cbn [for_each]. destruct (commit_times_step e st); cbn [obind]; auto.
  - rewrite (proj1 (time_reducers_skip_other_types e st [] Hp)). cbn [obind]. apply IH.
Qed.

Lemma monthly_group_filter (events : list Event.t) (c : dict string Z) :
  for_each (filter is_push events) c monthly_step
  = for_each events c monthly_step.
Proof.
  revert c. induction events as [|e events IH]; intros c; [reflexivity|].
  cbn [filter for_each]. destruct (is_push e) eqn:Hp.
  - cbn [for_each]. destruct (monthly_step e c); cbn [obind]; auto.
  - rewrite (proj2 (time_reducers_skip_other_types e ([], []) c Hp)). cbn [obind].
    apply IH.
Qed.

Lemma count_filter_sub {A : Type} (p q : A -> bool) (l : list A) :
  (forall x, p x = true -> q x = true) -> count p (filter q l) = count p l.
Proof.
  intros Hpq. induction l as [|x l IH]; [reflexivity|].
  cbn [filter]. rewrite count_cons. destruct (q x) eqn:Hq.
  - rewrite count_cons, IH. reflexivity.
  - rewrite IH. destruct (p x) eqn:Hp; [|lia].
    rewrite (Hpq x Hp) in Hq. discriminate.
Qed.

Lemma durations_of_filter (events : list Event.t) :
  durations_of (filter is_pull_request events) = durations_of events.
Proof.
  induction events as [|e events IH]; [reflexivity|].
  cbn [filter]. rewrite (durations_of_cons e events).
  destruct (is_pull_request e) eqn:Hp.
  - rewrite durations_of_cons, IH. reflexivity.
  - rewrite IH. unfold durations_of at 2, valid_duration. simpl flat_map.
    rewrite is_merged_pr_spec, Hp. reflexivity.
Qed.

(** X16.  The time-based reducers give the same result, or raise the same
    exception, on the push events alone as on the whole list, and
    [analyze_pr_stats] gives the same statistics on the pull-request events
    alone: events of other types, whatever they hold, change nothing. *)
Theorem reducers_ignore_other_types (now : datetime) (events : list Event.t)
    (months : Z) :
  analyze_commit_times (filter is_push events) = analyze_commit_times events /\
  analyze_monthly_commits now (filter is_push events) months
  = analyze_monthly_commits now events months /\
  analyze_pr_stats (filter is_pull_request events) = analyze_pr_stats events.
Proof.
  split; [|split].
  - unfold analyze_commit_times. apply commit_times_filter.
  - unfold analyze_monthly_commits, monthly_group.
    now rewrite monthly_group_filter.
  - rewrite !analyze_pr_stats_spec. cbv zeta.
    rewrite durations_of_filter.
    rewrite (count_filter_sub is_pull_request is_pull_request) by auto.
    rewrite (count_filter_sub is_merged_pr is_pull_request)
      by exact is_merged_pr_is_pr.
    reflexivity.
Qed.
